(** * obsidian-reflector: the meeting-note parser, the relationship and
    task-linkage engines and the tag-suggestion engine.

    Shallow embedding of [src/services/meeting-note-parser.ts],
    [src/services/todo-service.ts] and [services/tag-service.ts].
    Strings are Rocq byte strings; the character classes of the JS
    regular expressions and of [String.prototype.trim] / [toLowerCase]
    are modelled on their ASCII part. *)

From Stdlib Require Import String Ascii List Bool Arith Lia Sorted Permutation ZArith.
Import ListNotations.
Open Scope string_scope.
Open Scope nat_scope.
Open Scope list_scope.

(** ** JS string primitives (ASCII model) *)

(** [\s] / the characters removed by [trim]: TAB, LF, VT, FF, CR, SPACE. *)
Definition is_ws (c : ascii) : bool :=
  let n := nat_of_ascii c in ((9 <=? n) && (n <=? 13)) || (n =? 32).

Fixpoint drop_ws (l : list ascii) : list ascii :=
  match l with
  | [] => []
  | c :: r => if is_ws c then drop_ws r else l
  end.

(** [s.trim()] *)
Definition trim (s : string) : string :=
  string_of_list_ascii
    (rev (drop_ws (rev (drop_ws (list_ascii_of_string s))))).

(** [s.startsWith(p)] *)
Definition startsWith (s p : string) : bool := String.prefix p s.

(** [s.slice(n)] *)
Fixpoint slice_from (n : nat) (s : string) : string :=
  match n, s with
  | O, _ => s
  | S _, EmptyString => EmptyString
  | S k, String _ r => slice_from k r
  end.

(** [s.includes(t)] *)
Fixpoint includes (s t : string) : bool :=
  String.prefix t s ||
  match s with
  | EmptyString => false
  | String _ r => includes r t
  end.

(** [s.endsWith(t)] *)
Definition endsWith (s t : string) : bool :=
  (String.length t <=? String.length s) &&
  String.eqb (substring (String.length s - String.length t)
                        (String.length t) s) t.

Definition lower_char (c : ascii) : ascii :=
  let n := nat_of_ascii c in
  if (65 <=? n) && (n <=? 90) then ascii_of_nat (n + 32) else c.

(** [s.toLowerCase()] *)
Fixpoint toLowerCase (s : string) : string :=
  match s with
  | EmptyString => EmptyString
  | String c r => String (lower_char c) (toLowerCase r)
  end.

(** [s.split(c)] for a one-character separator (a string or a one-character
    regex class such as [/[/-]/]). *)
Fixpoint split_on (sep : ascii -> bool) (l : list ascii) : list (list ascii) :=
  match l with
  | [] => [[]]
  | c :: r =>
      if sep c then [] :: split_on sep r
      else match split_on sep r with
           | [] => [[c]]
           | w :: ws => (c :: w) :: ws
           end
  end.

Definition split_by (sep : ascii -> bool) (s : string) : list string :=
  map string_of_list_ascii (split_on sep (list_ascii_of_string s)).

Definition nl : ascii := ascii_of_nat 10.
Definition nl_s : string := String nl EmptyString.

(** [s.split("\n")] *)
Definition split_lines (s : string) : list string :=
  split_by (fun c => Ascii.eqb c nl) s.

(** [xs.join("\n")] *)
Definition join_lines (xs : list string) : string := String.concat nl_s xs.

(** JS truthiness of a string. *)
Definition truthy (s : string) : bool := negb (String.eqb s "").

(** [[...new Set(xs)]]: first occurrences, in order. *)
Definition set_of_list (xs : list string) : list string :=
  fold_left (fun acc x => if existsb (String.eqb x) acc then acc else acc ++ [x])
            xs [].

(** ** [TAG_REGEX = /#[\w/-]+/g] and [extractTags] *)

Definition is_word (c : ascii) : bool :=
  let n := nat_of_ascii c in
  ((48 <=? n) && (n <=? 57)) || ((65 <=? n) && (n <=? 90))
  || ((97 <=? n) && (n <=? 122)) || (n =? 95).

Definition hash : ascii := "#"%char.

Definition is_tag_char (c : ascii) : bool :=
  is_word c || Ascii.eqb c "/"%char || Ascii.eqb c "-"%char.

Definition emit_tag (acc : list ascii) : list string :=
  match acc with
  | [] => []
  | _ => [String hash (string_of_list_ascii (rev acc))]
  end.

(** Left-to-right scan equivalent to [text.match(TAG_REGEX)]: [pending] is
    [Some acc] after a [#] followed by the (reversed) tag characters [acc];
    a match is emitted when the run ends with at least one character. *)
Fixpoint tag_scan (pending : option (list ascii)) (s : string) : list string :=
  match s with
  | EmptyString =>
      match pending with Some acc => emit_tag acc | None => [] end
  | String c r =>
      match pending with
      | Some acc =>
          if is_tag_char c then tag_scan (Some (c :: acc)) r
          else emit_tag acc ++
               tag_scan (if Ascii.eqb c hash then Some [] else None) r
      | None =>
          tag_scan (if Ascii.eqb c hash then Some [] else None) r
      end
  end.

Definition tagMatches (text : string) : list string := tag_scan None text.

(** [extractTags] *)
Definition extractTags (text : string) : list string :=
  set_of_list (tagMatches text).

(** ** Data model *)

Record TFile := mkTFile {
  path : string;
  name : string;
  basename : string;
  (** what [vault.cachedRead(file)] returns *)
  contents : string;
  (** [metadataCache.getFileCache(file)?.tags], as their [tag] strings *)
  cache_tags : option (list string)
}.

Record MeetingNote := mkNote {
  file : TFile;
  heading : string;
  lineStart : nat;
  lineEnd : nat;
  tags : list string;
  content : string;
  date : string
}.

Record ReflectorSettings := mkSettings {
  dailyNotesFolder : string;
  meetingNotesHeader : string
}.

(** ** [MeetingNoteParser.parseDailyNote] *)

(** [finalizeMeetingNote partial contentLines file date lineEnd], with
    [partial] the pair (heading, lineStart). *)
Definition finalizeMeetingNote (partial : string * nat) (contentLines : list string)
    (f : TFile) (d : string) (lineEnd : nat) : MeetingNote :=
  let c := join_lines contentLines in
  let fullText := String.append (fst partial) (String.append nl_s c) in
  mkNote f (fst partial) (snd partial) lineEnd (extractTags fullText) c d.

(** [if (currentNote?.heading) meetingNotes.push(finalizeMeetingNote(...))] *)
Definition saveCurrent (cur : option (string * nat)) (contentLines : list string)
    (f : TFile) (d : string) (lineEnd : nat) (notes : list MeetingNote)
    : list MeetingNote :=
  match cur with
  | Some p => if truthy (fst p)
              then notes ++ [finalizeMeetingNote p contentLines f d lineEnd]
              else notes
  | None => notes
  end.

Record ParseState := mkPS {
  inNotesSection : bool;
  currentNote : option (string * nat);
  currentContent : list string;
  meetingNotes : list MeetingNote
}.

Definition initState : ParseState := mkPS false None [] [].

(** One iteration of the [for] loop of [parseDailyNote], at index [i]. *)
Definition step (headerLine : string) (f : TFile) (d : string) (i : nat)
    (line : string) (st : ParseState) : ParseState :=
  let trimmedLine := trim line in
  if String.eqb trimmedLine headerLine then
    mkPS true (currentNote st) (currentContent st) (meetingNotes st)
  else if inNotesSection st && startsWith trimmedLine "## "
          && negb (String.eqb trimmedLine headerLine) then
    mkPS false None []
         (saveCurrent (currentNote st) (currentContent st) f d i (meetingNotes st))
  else if negb (inNotesSection st) then st
  else if startsWith trimmedLine "### " then
    mkPS true (Some (trim (slice_from 4 trimmedLine), i)) []
         (saveCurrent (currentNote st) (currentContent st) f d i (meetingNotes st))
  else match currentNote st with
       | Some _ => mkPS true (currentNote st) (currentContent st ++ [line])
                        (meetingNotes st)
       | None => st
       end.

Fixpoint loop (headerLine : string) (f : TFile) (d : string) (i : nat)
    (lines : list string) (st : ParseState) : ParseState :=
  match lines with
  | [] => st
  | l :: r => loop headerLine f d (S i) r (step headerLine f d i l st)
  end.

(** [parseDailyNote] on the lines of a document. *)
Definition parseLines (settings : ReflectorSettings) (f : TFile)
    (lines : list string) : list MeetingNote :=
  let headerLine := trim (meetingNotesHeader settings) in
  let d := basename f in
  let st := loop headerLine f d 0 lines initState in
  saveCurrent (currentNote st) (currentContent st) f d (List.length lines)
              (meetingNotes st).

Definition parseDailyNote (settings : ReflectorSettings) (f : TFile)
    : list MeetingNote :=
  parseLines settings f (split_lines (contents f)).

(** ** [Array.prototype.sort] with a comparator

    ECMAScript requires [sort] to be stable; it is modelled by a stable
    insertion sort: an element is inserted before the first element it
    compares strictly below, i.e. after every element [y] with
    [cmp y x <= 0]. *)
Fixpoint insert_by {A} (cmp : A -> A -> Z) (x : A) (l : list A) : list A :=
  match l with
  | [] => [x]
  | y :: ys => if (0 <? cmp y x)%Z then x :: y :: ys else y :: insert_by cmp x ys
  end.

Definition sort_by {A} (cmp : A -> A -> Z) (l : list A) : list A :=
  fold_left (fun acc x => insert_by cmp x acc) l [].

(** [a.localeCompare(b)]: on the date keys compared here (file basenames
    matching [\d{4}-\d{2}-\d{2}]) the collation order is the order of the
    code units. *)
Definition localeCompare (a b : string) : Z :=
  match String.compare a b with Lt => (-1)%Z | Eq => 0%Z | Gt => 1%Z end.

(** ** Collection scanner *)

Inductive TAbstractFile :=
| AFile (f : TFile)
| AFolder (folderPath : string).

(** The host vault: [getMarkdownFiles()] and, for each folder path, its
    [children]. *)
Record Vault := mkVault {
  markdownFiles : list TFile;
  folders : list (string * list TAbstractFile)
}.

Fixpoint lookup_folder (p : string) (fs : list (string * list TAbstractFile))
    : option (list TAbstractFile) :=
  match fs with
  | [] => None
  | (q, ch) :: r => if String.eqb p q then Some ch else lookup_folder p r
  end.

Definition is_digit (c : ascii) : bool :=
  let n := nat_of_ascii c in (48 <=? n) && (n <=? 57).

(** [DAILY_NOTE_REGEX.test(name)] for [/^\d{4}-\d{2}-\d{2}\.md$/] *)
Definition isDailyNoteName (s : string) : bool :=
  match list_ascii_of_string s with
  | [y1; y2; y3; y4; d1; m1; m2; d2; a1; a2; dot; m; d] =>
      is_digit y1 && is_digit y2 && is_digit y3 && is_digit y4
      && Ascii.eqb d1 "-"%char && is_digit m1 && is_digit m2
      && Ascii.eqb d2 "-"%char && is_digit a1 && is_digit a2
      && Ascii.eqb dot "."%char && Ascii.eqb m "m"%char && Ascii.eqb d "d"%char
  | _ => false
  end.

(** [getDailyNoteFiles] *)
Definition getDailyNoteFiles (v : Vault) (settings : ReflectorSettings)
    : list TFile :=
  match lookup_folder (dailyNotesFolder settings) (folders v) with
  | None => []
  | Some children =>
      flat_map (fun a => match a with
                         | AFile f => if isDailyNoteName (name f) then [f] else []
                         | AFolder _ => []
                         end) children
  end.

(** [getAllMeetingNotes] *)
Definition getAllMeetingNotes (v : Vault) (settings : ReflectorSettings)
    : list MeetingNote :=
  let allNotes := flat_map (parseDailyNote settings) (getDailyNoteFiles v settings) in
  sort_by (fun a b => localeCompare (date b) (date a)) allNotes.

(** [getUntaggedMeetingNotes] *)
Definition getUntaggedMeetingNotes (v : Vault) (settings : ReflectorSettings)
    : list MeetingNote :=
  filter (fun n => List.length (tags n) =? 0) (getAllMeetingNotes v settings).

(** ** Relationship engine: [getRelatedMeetingNotes] *)

Definition setHas (s : list string) (x : string) : bool := existsb (String.eqb x) s.

Definition sharedCount (tagSet : list string) (n : MeetingNote) : nat :=
  List.length (filter (setHas tagSet) (tags n)).

Definition relatedFilter (note : MeetingNote) (tagSet : list string)
    (other : MeetingNote) : bool :=
  if String.eqb (path (file other)) (path (file note))
     && (lineStart other =? lineStart note)
  then false
  else existsb (setHas tagSet) (tags other).

Definition relatedCmp (tagSet : list string) (a b : MeetingNote) : Z :=
  let aShared := sharedCount tagSet a in
  let bShared := sharedCount tagSet b in
  if negb (bShared =? aShared) then (Z.of_nat bShared - Z.of_nat aShared)%Z
  else localeCompare (date b) (date a).

Definition getRelatedMeetingNotes (v : Vault) (settings : ReflectorSettings)
    (note : MeetingNote) : list MeetingNote :=
  if List.length (tags note) =? 0 then []
  else
    let allNotes := getAllMeetingNotes v settings in
    let tagSet := set_of_list (tags note) in
    sort_by (relatedCmp tagSet) (filter (relatedFilter note tagSet) allNotes).

(** ** Tag service *)

Record TagSuggestion := mkSuggestion {
  tag : string;
  score : nat;
  reason : string
}.

(** [tagCounts.set(tag, (tagCounts.get(tag) ?? 0) + 1)] on a [Map] kept as
    an association list in insertion order. *)
Fixpoint countTag (k : string) (m : list (string * nat)) : list (string * nat) :=
  match m with
  | [] => [(k, 1)]
  | (k', c) :: r => if String.eqb k k' then (k', S c) :: r else (k', c) :: countTag k r
  end.

(** [getAllVaultTags] *)
Definition getAllVaultTags (v : Vault) : list (string * nat) :=
  fold_left (fun m f =>
               match cache_tags f with
               | Some ts => fold_left (fun m t => countTag t m) ts m
               | None => m
               end) (markdownFiles v) [].

(** [getAllTagNames] *)
Definition getAllTagNames (v : Vault) : list string := map fst (getAllVaultTags v).

(** [s.split(re)] for a regex matching maximal runs of [sep] characters. *)
Definition cons_head (c : ascii) (ws : list (list ascii)) : list (list ascii) :=
  match ws with [] => [[c]] | w :: r => (c :: w) :: r end.

Fixpoint split_runs (sep : ascii -> bool) (l : list ascii) : list (list ascii) :=
  match l with
  | [] => [[]]
  | c :: r =>
      if sep c then
        match r with
        | c' :: _ => if sep c' then split_runs sep r else [] :: split_runs sep r
        | [] => [] :: split_runs sep r
        end
      else cons_head c (split_runs sep r)
  end.

Definition is_lower_alnum (c : ascii) : bool :=
  let n := nat_of_ascii c in ((97 <=? n) && (n <=? 122)) || ((48 <=? n) && (n <=? 57)).

(** [tokenize]: [text.toLowerCase().split(/[^a-z0-9]+/).filter(t => t.length > 2)] *)
Definition tokenize (text : string) : list string :=
  filter (fun t => 2 <? String.length t)
    (map string_of_list_ascii
       (split_runs (fun c => negb (is_lower_alnum c))
                   (list_ascii_of_string (toLowerCase text)))).

(** [tag.replace(/^#/, "")] *)
Definition stripHash (t : string) : string :=
  match t with
  | String c r => if Ascii.eqb c hash then r else t
  | EmptyString => EmptyString
  end.

Definition tagNameOf (t : string) : string := toLowerCase (stripHash t).

(** [tagName.split(/[/-]/)] *)
Definition tagPartsOf (tagName : string) : list string :=
  split_by (fun c => Ascii.eqb c "/"%char || Ascii.eqb c "-"%char) tagName.

(** The body of one token loop of [calculateTagScore], with weights
    [whole] (tag name / token substring), [exact] and [part]. *)
Definition tokenScore (whole exact part : nat) (tagName : string)
    (tagParts : list string) (score : nat) (token : string) : nat :=
  let score := if includes tagName token || includes token tagName
               then score + whole else score in
  fold_left (fun score p =>
               if String.eqb p token then score + exact
               else if includes p token || includes token p then score + part
               else score) tagParts score.

(** [calculateTagScore] *)
Definition calculateTagScore (t : string) (headingTokens contentTokens : list string)
    : nat :=
  let tagName := tagNameOf t in
  let tagParts := tagPartsOf tagName in
  let score := fold_left (tokenScore 10 15 5 tagName tagParts) headingTokens 0 in
  fold_left (tokenScore 3 5 1 tagName tagParts) contentTokens score.

(** [getMatchReason] *)
Definition matchesToken (tagName : string) (tagParts : list string) (token : string)
    : bool :=
  if includes tagName token || includes token tagName then true
  else existsb (fun p => String.eqb p token || includes p token || includes token p)
               tagParts.

Definition getMatchReason (t : string) (tokens : list string) : string :=
  let tagName := tagNameOf t in
  let tagParts := tagPartsOf tagName in
  let matchingTokens := filter (matchesToken tagName tagParts) tokens in
  let unique := firstn 3 (set_of_list matchingTokens) in
  match unique with
  | [] => "Related"
  | _ => String.append "Matches: " (String.concat ", " unique)
  end.

(** The body of the [for (const tag of allTags)] loop of [suggestTags]. *)
Definition suggestStep (headingTokens contentTokens allTokens existingTags : list string)
    (acc : list TagSuggestion) (t : string) : list TagSuggestion :=
  if setHas existingTags (toLowerCase t) then acc
  else
    let sc := calculateTagScore t headingTokens contentTokens in
    if 0 <? sc
    then acc ++ [mkSuggestion t sc (getMatchReason t allTokens)]
    else acc.

Definition scoreCmp (a b : TagSuggestion) : Z := (Z.of_nat (score b) - Z.of_nat (score a))%Z.

(** [suggestTags] *)
Definition suggestTags (v : Vault) (note : MeetingNote) : list TagSuggestion :=
  let allTags := getAllTagNames v in
  let headingTokens := tokenize (heading note) in
  let contentTokens := tokenize (content note) in
  let allTokens := headingTokens ++ contentTokens in
  let existingTags := set_of_list (map toLowerCase (tags note)) in
  let suggestions :=
    fold_left (suggestStep headingTokens contentTokens allTokens existingTags)
              allTags [] in
  firstn 10 (sort_by scoreCmp suggestions).

(** ** Todo service *)

Record TodoItem := mkTodo {
  todoText : string;
  todoFile : TFile;
  todoHeading : option string;
  todoLine : nat
}.

Record RelatedTodoItem := mkRelatedTodo {
  item : TodoItem;
  relationReason : string;
  matchingTags : list string
}.

(** Line terminators, the characters [.] does not match (ASCII part). *)
Definition is_line_term (c : ascii) : bool :=
  Ascii.eqb c nl || Ascii.eqb c (ascii_of_nat 13).

(** [(.+)$] on the rest of the input (no [m] flag). *)
Definition dotPlusEnd (l : list ascii) : option (list ascii) :=
  match l with
  | [] => None
  | _ => if forallb (fun c => negb (is_line_term c)) l then Some l else None
  end.

(** [\s{min,}(.+)$] with greedy backtracking: the group of [(.+)]. *)
Fixpoint wsThenRest (min : nat) (l : list ascii) : option (list ascii) :=
  match l with
  | c :: r =>
      if is_ws c then
        match wsThenRest (pred min) r with
        | Some g => Some g
        | None => if min =? 0 then dotPlusEnd l else None
        end
      else if min =? 0 then dotPlusEnd l else None
  | [] => None
  end.

(** [line.match(TODO_REGEX)?.[1]] for [/^[\s]*-\s*\[\s*\]\s*(.+)$/]; the
    runs of [\s] before a required non-space character cannot backtrack
    usefully, so they are dropped whole. *)
Definition todoMatch (line : string) : option string :=
  match drop_ws (list_ascii_of_string line) with
  | "-"%char :: r1 =>
      match drop_ws r1 with
      | "["%char :: r2 =>
          match drop_ws r2 with
          | "]"%char :: r3 => option_map string_of_list_ascii (wsThenRest 0 r3)
          | _ => None
          end
      | _ => None
      end
  | _ => None
  end.

Fixpoint drop_hashes (l : list ascii) : list ascii :=
  match l with
  | c :: r => if Ascii.eqb c hash then drop_hashes r else l
  | [] => []
  end.

(** [trimmed.match(/^#+\s+(.+)$/)?.[1]] *)
Definition headingMatch (trimmed : string) : option string :=
  match list_ascii_of_string trimmed with
  | c :: r =>
      if Ascii.eqb c hash
      then option_map string_of_list_ascii (wsThenRest 1 (drop_hashes r))
      else None
  | [] => None
  end.

Definition getTodosStep (f : TFile) (acc : option string * list TodoItem)
    (il : nat * string) : option string * list TodoItem :=
  let (i, line) := il in
  let (currentHeading, todos) := acc in
  let trimmed := trim line in
  let currentHeading :=
    if startsWith trimmed "#" then
      match headingMatch trimmed with
      | Some g => if truthy g then Some g else currentHeading
      | None => currentHeading
      end
    else currentHeading in
  match todoMatch line with
  | Some g =>
      if truthy g
      then (currentHeading, todos ++ [mkTodo (trim g) f currentHeading i])
      else (currentHeading, todos)
  | None => (currentHeading, todos)
  end.

Fixpoint enumerate {A} (i : nat) (l : list A) : list (nat * A) :=
  match l with [] => [] | x :: r => (i, x) :: enumerate (S i) r end.

(** [getTodosFromFile] *)
Definition getTodosFromFile (f : TFile) : list TodoItem :=
  snd (fold_left (getTodosStep f) (enumerate 0 (split_lines (contents f)))
                 (None, [])).

(** [getAllTodos] *)
Definition getAllTodos (v : Vault) : list TodoItem :=
  flat_map getTodosFromFile (markdownFiles v).

(** [getFileTags] *)
Definition getFileTags (f : TFile) : list string :=
  match cache_tags f with None => [] | Some ts => ts end.

(** [LINK_REGEX = /\[\[([^\]|]+)(?:\|[^\]]+)?\]\]/] at the start of [l]:
    the capture group and the input after the match.  The character
    classes are followed by a required character outside them, so the
    greedy runs are taken whole. *)
Fixpoint take_run (p : ascii -> bool) (l : list ascii) : list ascii * list ascii :=
  match l with
  | c :: r => if p c then let (a, b) := take_run p r in (c :: a, b) else ([], l)
  | [] => ([], [])
  end.

Definition linkAt (l : list ascii) : option (list ascii * list ascii) :=
  match l with
  | "["%char :: "["%char :: r =>
      let (g1, r1) := take_run (fun c => negb (Ascii.eqb c "]"%char || Ascii.eqb c "|"%char)) r in
      match g1 with
      | [] => None
      | _ =>
          match r1 with
          | "|"%char :: r2 =>
              let (g2, r3) := take_run (fun c => negb (Ascii.eqb c "]"%char)) r2 in
              match g2, r3 with
              | _ :: _, "]"%char :: "]"%char :: r4 => Some (g1, r4)
              | _, _ => None
              end
          | "]"%char :: "]"%char :: r4 => Some (g1, r4)
          | _ => None
          end
      end
  | _ => None
  end.

(** Successive matches of the global [LINK_REGEX]: (whole match, group 1). *)
Fixpoint linkScan (fuel : nat) (l : list ascii) : list (string * string) :=
  match fuel with
  | O => []
  | S k =>
      match l with
      | [] => []
      | c :: r =>
          match linkAt l with
          | Some (g, rest) =>
              let whole := firstn (List.length l - List.length rest) l in
              (string_of_list_ascii whole, string_of_list_ascii g) :: linkScan k rest
          | None => linkScan k r
          end
      end
  end.

Definition linkMatches (s : string) : list (string * string) :=
  let l := list_ascii_of_string s in linkScan (S (List.length l)) l.

(** [todoHasLinkToNote]: [todo.text.match(LINK_REGEX)] gives the whole
    matches; for each, [LINK_REGEX.exec(link)] (after [lastIndex = 0]) is
    the first match inside it. *)
Definition todoHasLinkToNote (todo : TodoItem) (note : MeetingNote) : bool :=
  let dailyNoteBasename := basename (file note) in
  let links := map fst (linkMatches (todoText todo)) in
  existsb (fun link =>
             match linkMatches link with
             | [] => false
             | (_, linkTarget) :: _ =>
                 truthy linkTarget &&
                 (String.eqb linkTarget dailyNoteBasename
                  || endsWith linkTarget (String.append "/" dailyNoteBasename))
             end) links
  || includes (toLowerCase (todoText todo)) (toLowerCase (heading note)).

(** [new Map(entries)]: a later entry for a key overwrites its value. *)
Fixpoint map_set (k : string) (x : string) (m : list (string * string))
    : list (string * string) :=
  match m with
  | [] => [(k, x)]
  | (k', y) :: r => if String.eqb k k' then (k', x) :: r else (k', y) :: map_set k x r
  end.

Fixpoint map_get (k : string) (m : list (string * string)) : option string :=
  match m with
  | [] => None
  | (k', y) :: r => if String.eqb k k' then Some y else map_get k r
  end.

Definition todoStep (note : MeetingNote) (noteTagSet : list string)
    (noteTagsOriginal : list (string * string)) (acc : list RelatedTodoItem)
    (todo : TodoItem) : list RelatedTodoItem :=
  if String.eqb (path (todoFile todo)) (path (file note)) then acc
  else
    let matchingTags :=
      if 0 <? List.length noteTagSet then
        fold_left (fun mt t =>
                     if setHas noteTagSet (toLowerCase t) then
                       match map_get (toLowerCase t) noteTagsOriginal with
                       | Some o => if truthy o then mt ++ [o] else mt
                       | None => mt
                       end
                     else mt) (getFileTags (todoFile todo)) []
      else [] in
    let relationReason :=
      if (0 <? List.length noteTagSet) && (0 <? List.length matchingTags)
      then "shared tag" else "" in
    let relationReason :=
      if negb (truthy relationReason) && todoHasLinkToNote todo note
      then "linked" else relationReason in
    if truthy relationReason
    then acc ++ [mkRelatedTodo todo relationReason matchingTags]
    else acc.

(** [getTodosForMeetingNote] *)
Definition getTodosForMeetingNote (v : Vault) (note : MeetingNote)
    : list RelatedTodoItem :=
  let noteTagSet := set_of_list (map toLowerCase (tags note)) in
  let noteTagsOriginal :=
    fold_left (fun m t => map_set (toLowerCase t) t m) (tags note) [] in
  fold_left (todoStep note noteTagSet noteTagsOriginal) (getAllTodos v) [].

(** Small executable checks of the embedding *)
Definition defaults : ReflectorSettings := mkSettings "_daily" "## Notes".
Definition doc (s : string) : TFile := mkTFile "_daily/2024-01-15.md" "2024-01-15.md" "2024-01-15" s None.

Example t1 : startsWith "## Notes" "## " = true. Proof. reflexivity. Qed.
Example t2 : trim "  ab c  " = "ab c". Proof. reflexivity. Qed.
Example t3 : extractTags "Standup #team #daily-sync ##x #team #" = ["#team"; "#daily-sync"; "#x"]. Proof. reflexivity. Qed.
Example t4 : map (fun n => (heading n, lineStart n, lineEnd n, tags n, content n))
  (parseLines defaults (doc "") ["## Notes"; "### A"; "x"; "### B #t"; "## Other"; "### C"])
  = [("A", 1, 3, [], "x"); ("B #t", 3, 4, ["#t"], "")]. Proof. reflexivity. Qed.
Example t5 : sort_by (fun a b => (Z.of_nat b - Z.of_nat a)%Z) [1;3;2;3;0] = [3;3;2;1;0]. Proof. reflexivity. Qed.
Example t6 : isDailyNoteName "2024-01-15.md" = true /\ isDailyNoteName "2024-01-15.mdx" = false. Proof. split; reflexivity. Qed.
Example t7 : tokenize "Project Alpha-standup: a  ok #x2y" = ["project"; "alpha"; "standup"; "x2y"]. Proof. reflexivity. Qed.
Example t8 : calculateTagScore "#Standup" ["standup"] [] = 25 /\ calculateTagScore "#Standup" [] ["standup"] = 8. Proof. split; reflexivity. Qed.
Example t9 : map (fun t => (todoText t, todoHeading t, todoLine t)) (getTodosFromFile (doc (join_lines ["# T"; "## Notes"; "- [ ] a [[2024-01-15|x]]"; "  - [x] done"; "-[] b "]))) = [("a [[2024-01-15|x]]", Some "Notes", 2); ("b", Some "Notes", 4)]. Proof. reflexivity. Qed.
Example t10 : linkMatches "x [[a|b]] [[c]] [[d|]] [[e]]" = [("[[a|b]]", "a"); ("[[c]]", "c"); ("[[e]]", "e")]. Proof. reflexivity. Qed.

(** ** Example vault (the end-to-end scenario of the documentation) *)

Definition day1 : TFile :=
  mkTFile "_daily/2024-01-15.md" "2024-01-15.md" "2024-01-15"
    (join_lines ["# 2024-01-15"; ""; "## Notes"; "";
                 "### Project Alpha Standup #project-alpha";
                 "- [ ] Follow up with design team"])
    (Some ["#project-alpha"]).

Definition day2 : TFile :=
  mkTFile "_daily/2024-01-16.md" "2024-01-16.md" "2024-01-16"
    (join_lines ["## Notes"; "### Planning #project-alpha"; "- notes"])
    (Some ["#project-alpha"]).

Definition exampleVault : Vault :=
  mkVault [day1; day2] [("_daily", [AFile day1; AFile day2; AFolder "_daily/old"])].

Definition exampleNotes : list MeetingNote := getAllMeetingNotes exampleVault defaults.

Definition noNote : MeetingNote := mkNote day1 "" 0 0 [] "" "".

Definition planningNote : MeetingNote := nth 0 exampleNotes noNote.
Definition standupNote : MeetingNote := nth 1 exampleNotes noNote.

(** A note about the example vault's project: its heading words overlap the
    vault tag [#project-alpha]. *)
Definition alphaNote : MeetingNote :=
  mkNote day2 "Alpha review" 1 2 [] "" "2024-01-16".


(** ** The note at the cursor and the side panel *)

(** [getMeetingNoteAtCursor] *)
Definition getMeetingNoteAtCursor (settings : ReflectorSettings) (f : TFile)
    (cursorLine : nat) : option MeetingNote :=
  if negb (isDailyNoteName (name f)) then None
  else find (fun n => (lineStart n <=? cursorLine) && (cursorLine <? lineEnd n))
            (parseDailyNote settings f).

Module ReflectorView.

Record ViewState := mkView {
  trackedFile : option TFile;
  trackedEditor : bool;
  currentNote : option MeetingNote;
  currentLine : Z
}.

(** [note?.file.path] and [note?.lineStart] *)
Definition notePath (o : option MeetingNote) : option string :=
  option_map (fun n => path (file n)) o.
Definition noteStart (o : option MeetingNote) : option nat :=
  option_map lineStart o.

Definition optStrEqb (a b : option string) : bool :=
  match a, b with
  | Some x, Some y => String.eqb x y
  | None, None => true
  | _, _ => false
  end.

Definition optNatEqb (a b : option nat) : bool :=
  match a, b with
  | Some x, Some y => Nat.eqb x y
  | None, None => true
  | _, _ => false
  end.

Definition noteChanged (note cur : option MeetingNote) : bool :=
  negb (optStrEqb (notePath note) (notePath cur)) ||
  negb (optNatEqb (noteStart note) (noteStart cur)).

(** [checkCursorPosition]: the cursor line of the tracked editor is
    [line]; the boolean tells whether [render] is called. *)
Definition checkCursorPosition (settings : ReflectorSettings) (st : ViewState)
    (line : nat) : ViewState * bool :=
  match trackedFile st with
  | None => (st, false)
  | Some f =>
      if negb (trackedEditor st) then (st, false)
      else if Z.eqb (Z.of_nat line) (currentLine st) then (st, false)
      else
        let st1 := mkView (trackedFile st) (trackedEditor st) (currentNote st)
                          (Z.of_nat line) in
        let note := getMeetingNoteAtCursor settings f line in
        if noteChanged note (currentNote st1)
        then (mkView (trackedFile st1) (trackedEditor st1) note (currentLine st1), true)
        else (st1, false)
  end.

(** [refresh] *)
Definition refresh (settings : ReflectorSettings) (st : ViewState) (line : nat)
    : ViewState * bool :=
  checkCursorPosition settings
    (mkView (trackedFile st) (trackedEditor st) None (-1)%Z) line.

(** [onFileOpen(file, editor)]; [line] is the cursor line of [editor]. *)
Definition onFileOpen (settings : ReflectorSettings) (st : ViewState)
    (file : option TFile) (editor : bool) (line : nat) : ViewState * bool :=
  match file with
  | Some f =>
      if editor
      then checkCursorPosition settings
             (mkView (Some f) true (currentNote st) (currentLine st)) line
      else (mkView None false None (-1)%Z, true)
  | None => (mkView None false None (-1)%Z, true)
  end.

End ReflectorView.

(** [lines[k] = v] on a JS array: past the end the array grows, the holes
    are joined as empty strings. *)
Definition setLine (lines : list string) (k : nat) (v : string) : list string :=
  if k <? List.length lines then firstn k lines ++ v :: skipn (S k) lines
  else lines ++ repeat "" (k - List.length lines) ++ [v].

(** The file edit of [addTagToCurrentNote]. *)
Definition addTagContent (content : string) (lineStart : nat) (tag : string) : string :=
  let lines := split_lines content in
  let insertLine := S lineStart in
  let currentLineContent := nth insertLine lines "" in
  let newLineContent :=
    if String.eqb (trim currentLineContent) "" then tag
    else String.append currentLineContent (String.append " " tag) in
  join_lines (setLine lines insertLine newLineContent).

(** [tagCounts.get(t)] on the map built by [getAllVaultTags]. *)
Fixpoint tagCountGet (t : string) (m : list (string * nat)) : option nat :=
  match m with
  | [] => None
  | (k, c) :: r => if String.eqb t k then Some c else tagCountGet t r
  end.

(** ** More example inputs *)

Definition twoNotesDay : TFile :=
  mkTFile "_daily/2024-02-01.md" "2024-02-01.md" "2024-02-01"
    (join_lines ["## Notes"; "### A #x"; "## Notes"; "body"; "### B"; "## Other"]) None.

Definition CR : ascii := ascii_of_nat 13.

Definition crlfDay : TFile :=
  mkTFile "_daily/2024-02-02.md" "2024-02-02.md" "2024-02-02"
    (join_lines [String.append "- [ ] call back" (String CR ""); "- [x] done"; "- [ ] write up"]) None.

Definition reviewNote : MeetingNote := mkNote day1 "Planning" 4 6 [] "" "2024-01-15".

Definition crowdedDay : TFile :=
  mkTFile "_daily/2024-03-01.md" "2024-03-01.md" "2024-03-01" "x"
    (Some ["#alpha"; "#alpha-a"; "#alpha-b"; "#alpha-c"; "#alpha-d"; "#alpha-e";
           "#alpha-f"; "#alpha-g"; "#alpha-h"; "#alpha-i"; "#alpha-j"; "#alpha-k"]).

Definition crowdedVault : Vault := mkVault [crowdedDay] [].

(** A note whose heading words match all twelve tags of [crowdedDay]. *)
Definition syncNote : MeetingNote := mkNote crowdedDay "Alpha sync" 0 1 [] "" "2024-03-01".

Definition viewStart : ReflectorView.ViewState :=
  ReflectorView.mkView (Some twoNotesDay) true None (-1)%Z.


Example t11 : map (fun n => (heading n, lineStart n, lineEnd n, tags n)) exampleNotes
  = [("Planning #project-alpha", 1, 3, ["#project-alpha"]);
     ("Project Alpha Standup #project-alpha", 4, 6, ["#project-alpha"])].
Proof. reflexivity. Qed.

(** * Properties *)

(** ** Sets built with [new Set] *)

Lemma set_fold_In (x : string) (l acc : list string) :
  In x (fold_left (fun acc y => if existsb (String.eqb y) acc then acc else acc ++ [y])
                  l acc) <-> In x acc \/ In x l.
Proof.
  revert acc; induction l as [|y l IH]; intro acc; simpl.
  - tauto.
  - rewrite IH. destruct (existsb (String.eqb y) acc) eqn:E.
    + apply existsb_exists in E as [z [Hz Hzy]]. apply String.eqb_eq in Hzy; subst z.
      split; [tauto|]. intros [H|[H|H]]; subst; tauto.
    + rewrite in_app_iff; simpl. tauto.
Qed.

Lemma set_of_list_In (x : string) (l : list string) :
  In x (set_of_list l) <-> In x l.
Proof. unfold set_of_list. rewrite set_fold_In. simpl. tauto. Qed.

Lemma setHas_In (s : list string) (x : string) : setHas s x = true <-> In x s.
Proof.
  unfold setHas. rewrite existsb_exists. split.
  - intros [y [Hy E]]. apply String.eqb_eq in E; subst; exact Hy.
  - intro H. exists x. split; [exact H | apply String.eqb_refl].
Qed.

Lemma set_fold_prefix (l acc : list string) :
  exists suf,
    fold_left (fun acc y => if existsb (String.eqb y) acc then acc else acc ++ [y])
              l acc = acc ++ suf.
Proof.
  revert acc; induction l as [|y l IH]; intro acc; simpl.
  - exists []. symmetry; apply app_nil_r.
  - destruct (existsb (String.eqb y) acc).
    + apply IH.
    + destruct (IH (acc ++ [y])) as [suf E]. rewrite E. exists (y :: suf).
      rewrite <- app_assoc. reflexivity.
Qed.

(** ** The stable insertion sort *)

Section SortBy.
Variable A : Type.
Variable cmp : A -> A -> Z.

Lemma insert_by_perm (x : A) (l : list A) :
  Permutation (insert_by cmp x l) (x :: l).
Proof.
  induction l as [|y ys IH]; simpl; [auto|].
  destruct (0 <? cmp y x)%Z; [auto|].
  transitivity (y :: x :: ys); [constructor; exact IH | apply perm_swap].
Qed.

Lemma sort_fold_perm (l acc : list A) :
  Permutation (fold_left (fun acc x => insert_by cmp x acc) l acc) (l ++ acc).
Proof.
  revert acc; induction l as [|x l IH]; intro acc; simpl; [auto|].
  eapply perm_trans; [apply IH|].
  eapply perm_trans; [apply Permutation_app_head, insert_by_perm|].
  apply Permutation_sym, Permutation_middle.
Qed.

Lemma sort_by_perm (l : list A) : Permutation (sort_by cmp l) l.
Proof.
  unfold sort_by. rewrite <- (app_nil_r l) at 2. apply sort_fold_perm.
Qed.

Definition cmp_le (a b : A) : Prop := (cmp a b <= 0)%Z.

Hypothesis cmp_antisym : forall a b, (0 < cmp b a)%Z -> (cmp a b <= 0)%Z.

Lemma insert_by_sorted (x : A) (l : list A) :
  Sorted cmp_le l -> Sorted cmp_le (insert_by cmp x l).
Proof.
  induction l as [|y ys IH]; intro Hs; simpl.
  - constructor; constructor.
  - destruct (0 <? cmp y x)%Z eqn:E.
    + constructor; [exact Hs|]. constructor. apply cmp_antisym.
      apply Z.ltb_lt; exact E.
    + apply Sorted_inv in Hs as [Hs Hh]. constructor; [apply IH; exact Hs|].
      apply Z.ltb_ge in E.
      destruct ys as [|z zs]; simpl.
      * constructor. exact E.
      * destruct (0 <? cmp z x)%Z; constructor; [exact E|].
        inversion Hh; assumption.
Qed.

Lemma sort_by_sorted (l : list A) : Sorted cmp_le (sort_by cmp l).
Proof.
  unfold sort_by.
  assert (G : forall acc, Sorted cmp_le acc ->
              Sorted cmp_le (fold_left (fun acc x => insert_by cmp x acc) l acc)).
  { induction l as [|x l IH]; intros acc Hacc; simpl; [exact Hacc|].
    apply IH, insert_by_sorted, Hacc. }
  apply G. constructor.
Qed.
End SortBy.

Lemma sorted_weaken {A} (R R' : A -> A -> Prop) (l : list A) :
  (forall a b, R a b -> R' a b) -> Sorted R l -> Sorted R' l.
Proof.
  intros HR Hs. induction Hs as [|a l Hs IH Hh]; constructor; [exact IH|].
  destruct Hh; constructor. apply HR; assumption.
Qed.

Lemma sorted_firstn {A} (R : A -> A -> Prop) (n : nat) (l : list A) :
  Sorted R l -> Sorted R (firstn n l).
Proof.
  revert l; induction n as [|n IH]; intros l Hs; simpl; [constructor|].
  destruct l as [|a l]; [constructor|].
  apply Sorted_inv in Hs as [Hs Hh]. constructor; [apply IH, Hs|].
  destruct n, l; simpl; try constructor. inversion Hh; assumption.
Qed.

(** ** Relationship engine *)

Lemma localeCompare_antisym (a b : string) :
  localeCompare a b = (- localeCompare b a)%Z.
Proof.
  unfold localeCompare. rewrite (String.compare_antisym a b).
  destruct (String.compare b a); reflexivity.
Qed.

Lemma relatedCmp_antisym (tagSet : list string) (a b : MeetingNote) :
  (0 < relatedCmp tagSet b a)%Z -> (relatedCmp tagSet a b <= 0)%Z.
Proof.
  unfold relatedCmp.
  destruct (Nat.eqb_spec (sharedCount tagSet a) (sharedCount tagSet b)) as [E|E];
  destruct (Nat.eqb_spec (sharedCount tagSet b) (sharedCount tagSet a)) as [E'|E'];
  simpl; try lia.
  rewrite (localeCompare_antisym (date b) (date a)). lia.
Qed.

Lemma relatedNotes_In (v : Vault) (settings : ReflectorSettings) (note m : MeetingNote) :
  tags note <> [] ->
  In m (getRelatedMeetingNotes v settings note) <->
  In m (getAllMeetingNotes v settings) /\
  relatedFilter note (set_of_list (tags note)) m = true.
Proof.
  intro Hne. unfold getRelatedMeetingNotes.
  destruct (List.length (tags note) =? 0) eqn:E.
  - apply Nat.eqb_eq, length_zero_iff_nil in E. contradiction.
  - split.
    + intro H. apply (Permutation_in _ (sort_by_perm _ _ _)) in H.
      apply filter_In in H. exact H.
    + intro H. apply (Permutation_in _ (Permutation_sym (sort_by_perm _ _ _))).
      apply filter_In. exact H.
Qed.

(** C5: two notes of the collection at different positions (document path,
    start line) that share a tag are related to each other, in both
    directions; and a note at the position of the query note is never in
    [relatedNotes] of it. *)
Theorem related_notes_symmetric (v : Vault) (settings : ReflectorSettings) :
  (forall X Y,
     In X (getAllMeetingNotes v settings) ->
     In Y (getAllMeetingNotes v settings) ->
     (path (file X) <> path (file Y) \/ lineStart X <> lineStart Y) ->
     (exists t, In t (tags X) /\ In t (tags Y)) ->
     In Y (getRelatedMeetingNotes v settings X) /\
     In X (getRelatedMeetingNotes v settings Y)) /\
  (forall N M,
     In M (getRelatedMeetingNotes v settings N) ->
     ~ (path (file M) = path (file N) /\ lineStart M = lineStart N)).
Proof.
  split.
  - intros X Y HX HY Hpos [t [HtX HtY]].
    assert (G : forall P Q, In P (getAllMeetingNotes v settings) ->
                (path (file P) <> path (file Q) \/ lineStart P <> lineStart Q) ->
                In t (tags P) -> In t (tags Q) ->
                In P (getRelatedMeetingNotes v settings Q)).
    { intros P Q HP HPQ HtP HtQ.
      apply relatedNotes_In; [intro E; rewrite E in HtQ; destruct HtQ|].
      split; [exact HP|]. unfold relatedFilter.
      destruct (String.eqb (path (file P)) (path (file Q))) eqn:E1;
      destruct (Nat.eqb (lineStart P) (lineStart Q)) eqn:E2; simpl.
      1: { apply String.eqb_eq in E1. apply Nat.eqb_eq in E2. tauto. }
      all: apply existsb_exists; exists t; split; [exact HtP|];
           apply setHas_In, set_of_list_In; exact HtQ. }
    split.
    + apply G; [exact HY | | exact HtY | exact HtX].
      destruct Hpos as [H|H]; [left|right]; auto.
    + apply G; [exact HX | exact Hpos | exact HtX | exact HtY].
  - intros N M HM [E1 E2].
    destruct (tags N) as [|t ts] eqn:Et.
    + unfold getRelatedMeetingNotes in HM. rewrite Et in HM. destruct HM.
    + apply relatedNotes_In in HM as [_ HF]; [|rewrite Et; discriminate].
      unfold relatedFilter in HF. rewrite E1, E2, String.eqb_refl, Nat.eqb_refl in HF.
      discriminate.
Qed.

Lemma related_notes_symmetric_witness :
  In standupNote (getRelatedMeetingNotes exampleVault defaults planningNote) /\
  In planningNote (getRelatedMeetingNotes exampleVault defaults standupNote).
Proof.
  apply (proj1 (related_notes_symmetric exampleVault defaults)).
  - vm_compute. tauto.
  - vm_compute. tauto.
  - left. vm_compute. discriminate.
  - exists "#project-alpha". vm_compute. tauto.
Defined.

(** C6: for a note with tags, [relatedNotes] is ordered by the number of
    shared tags (descending), then by date key (descending), and holds
    exactly the notes of the collection kept by the filter; it depends only
    on the collection; for an untagged note it is empty. *)
Theorem related_notes_order (v : Vault) (settings : ReflectorSettings)
    (note : MeetingNote) :
  (tags note = [] -> getRelatedMeetingNotes v settings note = []) /\
  (tags note <> [] ->
   let tagSet := set_of_list (tags note) in
   Sorted (fun a b => sharedCount tagSet b < sharedCount tagSet a \/
                      (sharedCount tagSet a = sharedCount tagSet b /\
                       String.leb (date b) (date a) = true))
          (getRelatedMeetingNotes v settings note) /\
   Permutation (getRelatedMeetingNotes v settings note)
               (filter (relatedFilter note tagSet) (getAllMeetingNotes v settings))) /\
  (forall v', getAllMeetingNotes v' settings = getAllMeetingNotes v settings ->
              getRelatedMeetingNotes v' settings note =
              getRelatedMeetingNotes v settings note).
Proof.
  split; [|split].
  - intro E. unfold getRelatedMeetingNotes. rewrite E. reflexivity.
  - intros Hne. cbv zeta. unfold getRelatedMeetingNotes.
    destruct (List.length (tags note) =? 0) eqn:E.
    { apply Nat.eqb_eq, length_zero_iff_nil in E. contradiction. }
    split; [|apply sort_by_perm].
    eapply sorted_weaken; [|apply sort_by_sorted; apply relatedCmp_antisym].
    intros a b H. unfold cmp_le, relatedCmp in H. cbv zeta in H.
    destruct (Nat.eqb_spec (sharedCount (set_of_list (tags note)) b)
                           (sharedCount (set_of_list (tags note)) a)) as [Eab|Eab];
      simpl in H; [|left; lia].
    right. split; [symmetry; exact Eab|].
    unfold localeCompare in H. unfold String.leb.
    destruct (String.compare (date b) (date a)); [reflexivity|reflexivity|lia].
  - intros v' E. unfold getRelatedMeetingNotes. rewrite E. reflexivity.
Qed.

(** ** The section parser: one step at a time *)

Section Parser.
Variable h : string.
Variable f : TFile.
Variable d : string.

Lemma loop_cons (i : nat) (l : string) (r : list string) (st : ParseState) :
  loop h f d i (l :: r) st = loop h f d (S i) r (step h f d i l st).
Proof. reflexivity. Qed.

Lemma loop_app (i : nat) (xs ys : list string) (st : ParseState) :
  loop h f d i (xs ++ ys) st = loop h f d (i + List.length xs) ys (loop h f d i xs st).
Proof.
  revert i st; induction xs as [|x xs IH]; intros i st; simpl.
  - rewrite Nat.add_0_r. reflexivity.
  - rewrite IH. f_equal. lia.
Qed.

Lemma step_header (i : nat) (l : string) (st : ParseState) :
  trim l = h ->
  step h f d i l st = mkPS true (currentNote st) (currentContent st) (meetingNotes st).
Proof. intro E. unfold step. rewrite E, String.eqb_refl. reflexivity. Qed.

Lemma step_close (i : nat) (l : string) (st : ParseState) :
  trim l <> h -> inNotesSection st = true -> startsWith (trim l) "## " = true ->
  step h f d i l st =
  mkPS false None []
       (saveCurrent (currentNote st) (currentContent st) f d i (meetingNotes st)).
Proof.
  intros E1 E2 E3. unfold step. apply String.eqb_neq in E1.
  rewrite E1, E2, E3. reflexivity.
Qed.

Lemma step_outside (i : nat) (l : string) (st : ParseState) :
  trim l <> h -> inNotesSection st = false -> step h f d i l st = st.
Proof.
  intros E1 E2. unfold step. apply String.eqb_neq in E1. rewrite E1, E2. reflexivity.
Qed.

Lemma step_open (i : nat) (l : string) (st : ParseState) :
  trim l <> h -> inNotesSection st = true -> startsWith (trim l) "## " = false ->
  startsWith (trim l) "### " = true ->
  step h f d i l st =
  mkPS true (Some (trim (slice_from 4 (trim l)), i)) []
       (saveCurrent (currentNote st) (currentContent st) f d i (meetingNotes st)).
Proof.
  intros E1 E2 E3 E4. unfold step. apply String.eqb_neq in E1.
  rewrite E1, E2, E3, E4. reflexivity.
Qed.

Lemma step_body (i : nat) (l : string) (st : ParseState) :
  trim l <> h -> inNotesSection st = true -> startsWith (trim l) "## " = false ->
  startsWith (trim l) "### " = false ->
  step h f d i l st =
  match currentNote st with
  | Some _ => mkPS true (currentNote st) (currentContent st ++ [l]) (meetingNotes st)
  | None => st
  end.
Proof.
  intros E1 E2 E3 E4. unfold step. apply String.eqb_neq in E1.
  rewrite E1, E2, E3, E4. reflexivity.
Qed.

Lemma loop_outside (i : nat) (ls : list string) (st : ParseState) :
  inNotesSection st = false -> (forall l, In l ls -> trim l <> h) ->
  loop h f d i ls st = st.
Proof.
  revert i; induction ls as [|l ls IH]; intros i Hin Hls; simpl; [reflexivity|].
  rewrite step_outside; [| apply Hls; left; reflexivity | exact Hin].
  apply IH; [exact Hin|]. intros l' H'. apply Hls. right. exact H'.
Qed.

(** A body line: neither the parent heading nor a heading of level 2 or 3. *)
Definition plainLine (l : string) : Prop :=
  trim l <> h /\ startsWith (trim l) "## " = false /\ startsWith (trim l) "### " = false.

Lemma loop_plain (i : nat) (ls : list string) (cur : option (string * nat))
    (cc : list string) (ns : list MeetingNote) :
  Forall plainLine ls ->
  exists cc', loop h f d i ls (mkPS true cur cc ns) = mkPS true cur cc' ns.
Proof.
  revert i cc; induction ls as [|l ls IH]; intros i cc Hls; simpl.
  - exists cc. reflexivity.
  - inversion Hls as [|? ? [E1 [E2 E3]] Hrest]; subst.
    rewrite step_body by assumption || reflexivity. simpl.
    destruct cur; apply IH; exact Hrest.
Qed.

Lemma saveCurrent_prefix (cur : option (string * nat)) (cc : list string)
    (i : nat) (ns : list MeetingNote) :
  exists suf, saveCurrent cur cc f d i ns = ns ++ suf.
Proof.
  unfold saveCurrent. destruct cur as [p|]; [destruct (truthy (fst p))|];
    eexists; [reflexivity | symmetry; apply app_nil_r | symmetry; apply app_nil_r].
Qed.

Lemma loop_notes_prefix (i : nat) (ls : list string) (st : ParseState) :
  exists suf, meetingNotes (loop h f d i ls st) = meetingNotes st ++ suf.
Proof.
  revert i st; induction ls as [|l ls IH]; intros i st; simpl.
  - exists []. symmetry; apply app_nil_r.
  - destruct (IH (S i) (step h f d i l st)) as [suf E]. rewrite E.
    assert (G : exists s, meetingNotes (step h f d i l st) = meetingNotes st ++ s).
    { unfold step.
      repeat match goal with
             | |- context [if ?b then _ else _] => destruct b
             | |- context [match currentNote st with _ => _ end] =>
                 destruct (currentNote st)
             end; simpl;
      solve [apply saveCurrent_prefix | exists []; symmetry; apply app_nil_r]. }
    destruct G as [s Es]. rewrite Es, <- app_assoc. eexists. reflexivity.
Qed.
End Parser.

(** Run the parser over a block of body lines. *)
Ltac skip_plain ls H :=
  match goal with
  | |- context [loop ?hh ?ff ?dd ?i ls (mkPS true ?c ?cc ?ns)] =>
      let c' := fresh "cc" in let E := fresh "E" in
      destruct (loop_plain hh ff dd i ls c cc ns H) as [c' E]; rewrite E
  end.

Lemma startsWith_h1 (s : string) :
  startsWith s "# " = true -> startsWith s "## " = false /\ startsWith s "### " = false.
Proof.
  unfold startsWith. intro H.
  destruct s as [|c1 [|c2 r]]; cbn [String.prefix] in H; [discriminate H| |].
  - destruct (ascii_dec "#" c1); discriminate H.
  - destruct (ascii_dec "#" c1) as [E1|]; [subst c1|discriminate H].
    destruct (ascii_dec " " c2) as [E2|]; [subst c2|discriminate H].
    split; reflexivity.
Qed.

Section ParserRestart.
Variable h : string.
Variable f : TFile.
Variable d : string.
Variable i0 : nat.
Variable base : list MeetingNote.

(** Every note produced or open since [base] starts at line [i0] or later. *)
Definition startsFrom (st : ParseState) : Prop :=
  exists suf, meetingNotes st = base ++ suf /\ Forall (fun n => i0 <= lineStart n) suf /\
  match currentNote st with Some (_, s) => i0 <= s | None => True end.

Lemma saveCurrent_from (cur : option (string * nat)) (cc : list string) (j : nat)
    (suf : list MeetingNote) :
  match cur with Some (_, s) => i0 <= s | None => True end ->
  Forall (fun n => i0 <= lineStart n) suf ->
  exists suf', saveCurrent cur cc f d j (base ++ suf) = base ++ suf' /\
    Forall (fun n => i0 <= lineStart n) suf'.
Proof.
  intros Hc Hs. unfold saveCurrent. destruct cur as [[hd s]|]; [simpl fst; destruct (truthy hd)|].
  - exists (suf ++ [finalizeMeetingNote (hd, s) cc f d j]). rewrite app_assoc.
    split; [reflexivity|]. apply Forall_app. split; [exact Hs|]. constructor; [exact Hc | constructor].
  - exists suf. split; [reflexivity | exact Hs].
  - exists suf. split; [reflexivity | exact Hs].
Qed.

Lemma step_startsFrom (i : nat) (l : string) (st : ParseState) :
  i0 <= i -> startsFrom st -> startsFrom (step h f d i l st).
Proof.
  intros Hi (suf & Hn & Hs & Hc). unfold step. cbv zeta.
  destruct (String.eqb (trim l) h).
  { exists suf. simpl. split; [exact Hn|]. split; [exact Hs | exact Hc]. }
  destruct (inNotesSection st && startsWith (trim l) "## " && negb false).
  { destruct (saveCurrent_from (currentNote st) (currentContent st) i suf Hc Hs) as (suf' & E & Hs').
    exists suf'. simpl. rewrite Hn, E. split; [reflexivity|]. split; [exact Hs' | exact I]. }
  destruct (negb (inNotesSection st)).
  { exists suf. split; [exact Hn|]. split; [exact Hs | exact Hc]. }
  destruct (startsWith (trim l) "### ").
  { destruct (saveCurrent_from (currentNote st) (currentContent st) i suf Hc Hs) as (suf' & E & Hs').
    exists suf'. simpl. rewrite Hn, E. split; [reflexivity|]. split; [exact Hs' | exact Hi]. }
  destruct (currentNote st) as [p|] eqn:Ec.
  - exists suf. simpl. split; [exact Hn|]. split; [exact Hs | exact Hc].
  - exists suf. split; [exact Hn|]. split; [exact Hs | rewrite Ec; exact I].
Qed.

Lemma loop_startsFrom (ls : list string) : forall (i : nat) (st : ParseState),
  i0 <= i -> startsFrom st -> startsFrom (loop h f d i ls st).
Proof.
  induction ls as [|l ls IH]; intros i st Hi Hs; simpl; [exact Hs|].
  apply IH; [lia | apply step_startsFrom; assumption].
Qed.
End ParserRestart.

(** C1 (as the code has it).  Inside the parent section, a line whose
    trimmed text starts with ["## "] and is not the parent heading closes
    the section: the open child note (when its heading is non-empty) is
    finalized with that line's index as its end, the parser is outside the
    section, and, whatever follows, every later note starts after the
    block [mid] of lines without the parent heading, that is, only once
    the parent heading is seen again.  A line whose trimmed text starts
    with ["# "] (an H1) and is not the parent heading does not close the
    section: it is appended to the body of the open note, and ignored
    when no note is open. *)
Theorem section_closed_by_h2 (settings : ReflectorSettings) (f : TFile)
    (pre : list string) (line : string) (mid : list string) :
  let h := trim (meetingNotesHeader settings) in
  let st := loop h f (basename f) 0 pre initState in
  let closed := saveCurrent (currentNote st) (currentContent st) f (basename f)
                            (List.length pre) (meetingNotes st) in
  inNotesSection st = true -> trim line <> h ->
  (startsWith (trim line) "## " = true ->
   (forall l, In l mid -> trim l <> h) ->
   loop h f (basename f) 0 (pre ++ line :: mid) initState = mkPS false None [] closed /\
   forall rest, exists suf,
     parseLines settings f (pre ++ line :: mid ++ rest) = closed ++ suf /\
     Forall (fun n => List.length pre + 1 + List.length mid <= lineStart n) suf) /\
  (startsWith (trim line) "# " = true ->
   loop h f (basename f) 0 (pre ++ [line]) initState =
   match currentNote st with
   | Some _ => mkPS true (currentNote st) (currentContent st ++ [line]) (meetingNotes st)
   | None => st
   end).
Proof.
  intros h st closed Hin Hne. split.
  - intros Hh2 Hmid.
    assert (Hc : loop h f (basename f) 0 (pre ++ line :: mid) initState = mkPS false None [] closed).
    { rewrite loop_app. fold st. rewrite loop_cons. simpl.
      rewrite step_close by assumption.
      apply loop_outside; [reflexivity | exact Hmid]. }
    split; [exact Hc|]. intros rest.
    unfold parseLines. fold h.
    replace (pre ++ line :: mid ++ rest) with ((pre ++ line :: mid) ++ rest)
      by (rewrite <- app_assoc; reflexivity).
    rewrite loop_app, Hc.
    set (i0 := List.length pre + 1 + List.length mid).
    assert (Hl : 0 + List.length (pre ++ line :: mid) = i0)
      by (unfold i0; rewrite length_app; simpl; lia).
    rewrite Hl.
    assert (S0 : startsFrom i0 closed (mkPS false None [] closed))
      by (exists []; split; [symmetry; apply app_nil_r | split; [constructor | exact I]]).
    destruct (loop_startsFrom h f (basename f) i0 closed rest i0 _ (le_n _) S0)
      as (suf & Hn & Hs & Hcur).
    rewrite Hn.
    destruct (saveCurrent_from f (basename f) i0 closed _
                (currentContent (loop h f (basename f) i0 rest (mkPS false None [] closed)))
                (List.length ((pre ++ line :: mid) ++ rest)) suf Hcur Hs) as (suf' & E & Hs').
    exists suf'. split; [exact E | exact Hs'].
  - intros H1. destruct (startsWith_h1 _ H1) as [N2 N3].
    rewrite loop_app. fold st. simpl.
    rewrite step_body by assumption. reflexivity.
Qed.

Lemma section_closed_by_h2_witness :
  let pre := ["## Notes"; "### A"; "body"] in
  exists suf,
    parseLines defaults (doc "") (pre ++ "## Other" :: ["### X"] ++ ["## Notes"; "### B"]) =
    saveCurrent (Some ("A", 1)) ["body"] (doc "") "2024-01-15" 3 [] ++ suf /\
    Forall (fun n => 3 + 1 + 1 <= lineStart n) suf.
Proof.
  destruct (section_closed_by_h2 defaults (doc "") ["## Notes"; "### A"; "body"]
              "## Other" ["### X"] eq_refl ltac:(vm_compute; discriminate)) as [H _].
  exact (proj2 (H eq_refl ltac:(intros l [E|[]]; subst l; vm_compute; discriminate))
               ["## Notes"; "### B"]).
Defined.

(** C1 fails for an H1 line: ["# Top"] inside the section does not close
    it; it becomes body text of the open note ["A"], which ends only at the
    next child heading, and the child ["B"] after it is still produced. *)
Lemma section_h1_counterexample :
  let ns := parseLines defaults (doc "") ["## Notes"; "### A"; "# Top"; "### B"] in
  (exists n, In n ns /\ heading n = "A" /\ lineEnd n = 3 /\ content n = "# Top") /\
  (exists n, In n ns /\ lineStart n = 3).
Proof.
  split.
  - eexists. split; [left; reflexivity|]. vm_compute. auto.
  - eexists. split; [right; left; reflexivity|]. reflexivity.
Qed.

(** C3: [## Notes], child [### A], child [### B], sibling [## Other] (with
    body lines that are no headings in between, and no further parent
    heading before or after) give exactly two notes; A ends where B starts
    and B ends at the [## Other] line. *)
Theorem boundary_two_notes (settings : ReflectorSettings) (f : TFile)
    (pre b0 bA bB post : list string) :
  trim (meetingNotesHeader settings) = "## Notes" ->
  (forall l, In l pre -> trim l <> "## Notes") ->
  (forall l, In l post -> trim l <> "## Notes") ->
  Forall (plainLine "## Notes") b0 ->
  Forall (plainLine "## Notes") bA ->
  Forall (plainLine "## Notes") bB ->
  let iA := List.length pre + 1 + List.length b0 in
  let iB := iA + 1 + List.length bA in
  let iO := iB + 1 + List.length bB in
  exists nA nB,
    parseLines settings f
      (pre ++ ["## Notes"] ++ b0 ++ ["### A"] ++ bA ++ ["### B"] ++ bB
           ++ ["## Other"] ++ post) = [nA; nB] /\
    heading nA = "A" /\ heading nB = "B" /\
    lineStart nA = iA /\ lineEnd nA = iB /\
    lineStart nB = iB /\ lineEnd nB = iO.
Proof.
  intros Hh Hpre Hpost H0 HA HB iA iB iO. unfold parseLines. rewrite Hh.
  set (d := basename f).
  rewrite loop_app, (loop_outside _ f d 0 pre initState) by (reflexivity || exact Hpre).
  simpl app. rewrite loop_cons, step_header by reflexivity. simpl.
  rewrite loop_app. skip_plain b0 H0.
  rewrite loop_cons, step_open by (reflexivity || discriminate). simpl.
  rewrite loop_app. skip_plain bA HA.
  rewrite loop_cons, step_open by (reflexivity || discriminate). simpl.
  rewrite loop_app. skip_plain bB HB.
  rewrite loop_cons, step_close by (reflexivity || discriminate). simpl.
  rewrite loop_outside by (reflexivity || exact Hpost). simpl.
  do 2 eexists. split; [reflexivity|].
  unfold iB, iA, iO; simpl; repeat split; lia.
Qed.

Lemma boundary_two_notes_witness :
  exists nA nB,
    parseLines defaults (doc "")
      (["# 2024-01-15"] ++ ["## Notes"] ++ [""] ++ ["### A"] ++ ["- a"] ++ ["### B"]
         ++ ["- b"; "# x"] ++ ["## Other"] ++ ["### C"]) = [nA; nB] /\
    heading nA = "A" /\ heading nB = "B" /\
    lineStart nA = 3 /\ lineEnd nA = 5 /\ lineStart nB = 5 /\ lineEnd nB = 8.
Proof.
  apply (boundary_two_notes defaults (doc "") ["# 2024-01-15"] [""] ["- a"] ["- b"; "# x"] ["### C"]).
  - reflexivity.
  - intros l [E|[]]; subst l; discriminate.
  - intros l [E|[]]; subst l; discriminate.
  - repeat constructor; discriminate.
  - repeat constructor; discriminate.
  - repeat constructor; discriminate.
Defined.

(** ** [trim] and child headings *)

Lemma prefix_append (p s : string) :
  String.prefix p s = true -> exists r, s = String.append p r.
Proof.
  revert s; induction p as [|c p IH]; intros s H; simpl in *.
  - exists s; reflexivity.
  - destruct s as [|c' s]; simpl in H; [discriminate|].
    destruct (ascii_dec c c') as [E|]; [subst c'|discriminate].
    destruct (IH s H) as [r ->]. exists r; reflexivity.
Qed.

Lemma trim_list (s : string) :
  list_ascii_of_string (trim s) = rev (drop_ws (rev (drop_ws (list_ascii_of_string s)))).
Proof. unfold trim. apply list_ascii_of_string_of_list_ascii. Qed.

Lemma drop_ws_shape (l : list ascii) :
  drop_ws l = [] \/ exists c r, drop_ws l = c :: r /\ is_ws c = false.
Proof.
  induction l as [|c l IH]; simpl; [left; reflexivity|].
  destruct (is_ws c) eqn:E; [exact IH | right; exists c, l; split; auto].
Qed.

Lemma drop_ws_last (x : list ascii) (c : ascii) :
  is_ws c = false -> exists y, drop_ws (x ++ [c]) = y ++ [c].
Proof.
  induction x as [|a x IH]; intro Hc; simpl.
  - rewrite Hc. exists []. reflexivity.
  - destruct (is_ws a); [apply IH, Hc | exists (a :: x); reflexivity].
Qed.

(** A trimmed string is empty or ends with a non-space character. *)
Lemma trim_last (s : string) :
  list_ascii_of_string (trim s) = [] \/
  exists x c, list_ascii_of_string (trim s) = x ++ [c] /\ is_ws c = false.
Proof.
  rewrite trim_list.
  destruct (drop_ws_shape (rev (drop_ws (list_ascii_of_string s)))) as [E|[c [r [E Hc]]]];
    rewrite E; [left; reflexivity|].
  right. exists (rev r), c. split; [reflexivity | exact Hc].
Qed.

Lemma trim_nonempty_of_last (x : list ascii) (c : ascii) :
  is_ws c = false -> trim (string_of_list_ascii (x ++ [c])) <> "".
Proof.
  intros Hc E. apply (f_equal list_ascii_of_string) in E.
  rewrite trim_list, list_ascii_of_string_of_list_ascii in E.
  destruct (drop_ws_last x c Hc) as [y Ey]. rewrite Ey, rev_app_distr in E.
  simpl in E. rewrite Hc in E. simpl in E.
  apply app_eq_nil in E as [_ E]. discriminate.
Qed.

(** The heading text of a child heading line is never empty: the line is
    trimmed first, so something other than spaces follows ["### "]. *)
Lemma child_heading_nonempty (l : string) :
  startsWith (trim l) "### " = true -> trim (slice_from 4 (trim l)) <> "".
Proof.
  intro H. unfold startsWith in H. apply prefix_append in H as [r Er].
  rewrite Er. simpl slice_from.
  destruct (trim_last l) as [E|[x [c [E Hc]]]]; rewrite Er in E; simpl in E;
    [discriminate|].
  destruct (list_ascii_of_string r) as [|a ra] eqn:Rl.
  - change (["#"%char; "#"%char; "#"%char] ++ [" "%char] = x ++ [c]) in E.
    apply app_inj_tail in E as [_ <-]. discriminate Hc.
  - destruct (exists_last (l := a :: ra) ltac:(discriminate)) as [y [z Eyz]].
    rewrite Eyz in E.
    change (("#"%char :: "#"%char :: "#"%char :: [" "%char]) ++ y ++ [z] = x ++ [c]) in E.
    rewrite app_assoc in E. apply app_inj_tail in E as [_ <-].
    rewrite <- (string_of_list_ascii_of_string r), Rl, Eyz.
    apply trim_nonempty_of_last. exact Hc.
Qed.

(** ** The parser invariant *)

Section ParserInvariant.
Variable h : string.
Variable f : TFile.
Variable d : string.
Variable lines : list string.

Definition goodNote (n : MeetingNote) : Prop :=
  lineStart n < lineEnd n /\ heading n <> "" /\
  (lineEnd n = S (lineStart n) -> content n = "") /\
  heading n = trim (slice_from 4 (trim (nth (lineStart n) lines ""))) /\
  tags n = extractTags (String.append (heading n) (String.append nl_s (content n))).

Definition curOk (i : nat) (cur : option (string * nat)) (cc : list string) : Prop :=
  match cur with
  | Some (hd, s) => s < i /\ s + 1 + List.length cc <= i /\
                    hd = trim (slice_from 4 (trim (nth s lines "")))
  | None => True
  end.

Definition parseInv (i : nat) (st : ParseState) : Prop :=
  Forall goodNote (meetingNotes st) /\ curOk i (currentNote st) (currentContent st).

Lemma saveCurrent_good (cur : option (string * nat)) (cc : list string) (i : nat)
    (ns : list MeetingNote) :
  curOk i cur cc -> Forall goodNote ns ->
  Forall goodNote (saveCurrent cur cc f d i ns).
Proof.
  intros Hc Hns. destruct cur as [[hd s]|]; simpl; [|exact Hns].
  destruct (truthy hd) eqn:T; [|exact Hns].
  apply Forall_app. split; [exact Hns|]. constructor; [|constructor].
  destruct Hc as (H1 & H2 & H3).
  unfold goodNote, finalizeMeetingNote; simpl. repeat split.
  - exact H1.
  - unfold truthy in T. apply negb_true_iff, String.eqb_neq in T. exact T.
  - intro E. destruct cc; [reflexivity | simpl in H2; lia].
  - exact H3.
Qed.

Lemma step_inv (i : nat) (l : string) (st : ParseState) :
  nth i lines "" = l -> parseInv i st -> parseInv (S i) (step h f d i l st).
Proof.
  intros Hl [Hns Hcur]. destruct st as [inn cur cc ns].
  unfold parseInv in *; simpl in *. unfold step; simpl.
  repeat match goal with |- context [if ?b then _ else _] => destruct b end;
    simpl.
  all: try (split; [apply saveCurrent_good; assumption | exact I]).
  all: try (split; [apply saveCurrent_good; assumption |
                    simpl; rewrite Hl; repeat split; lia]).
  all: split; [assumption|]; unfold curOk in *;
       repeat match goal with p : (string * nat)%type |- _ => destruct p end;
       try destruct cur as [[hd s]|]; try exact I;
       destruct Hcur as (H1 & H2 & H3);
       rewrite ?length_app; simpl; repeat split; try lia; exact H3.
Qed.

Lemma loop_inv (pre ls : list string) (st : ParseState) :
  pre ++ ls = lines -> parseInv (List.length pre) st ->
  parseInv (List.length pre + List.length ls) (loop h f d (List.length pre) ls st).
Proof.
  revert pre st; induction ls as [|l ls IH]; intros pre st Hpl Hinv; simpl.
  - rewrite Nat.add_0_r. exact Hinv.
  - replace (List.length pre + S (List.length ls))
      with (List.length (pre ++ [l]) + List.length ls)
      by (rewrite length_app; simpl; lia).
    replace (S (List.length pre)) with (List.length (pre ++ [l]))
      by (rewrite length_app; simpl; lia).
    apply IH; [rewrite <- app_assoc; exact Hpl|].
    rewrite length_app; simpl. rewrite Nat.add_1_r. apply step_inv; [|exact Hinv].
    rewrite <- Hpl, app_nth2, Nat.sub_diag by lia. reflexivity.
Qed.
End ParserInvariant.

Lemma parse_good (settings : ReflectorSettings) (f : TFile) (lines : list string) :
  Forall (goodNote lines) (parseLines settings f lines).
Proof.
  unfold parseLines.
  pose proof (loop_inv (trim (meetingNotesHeader settings)) f (basename f) lines
                [] lines initState eq_refl) as G.
  simpl in G. destruct G as [G1 G2].
  { split; [constructor | exact I]. }
  apply saveCurrent_good; assumption.
Qed.

Lemma child_not_h2 (s : string) :
  startsWith s "### " = true -> startsWith s "## " = false.
Proof.
  unfold startsWith. intro H. apply prefix_append in H as [r ->]. reflexivity.
Qed.

Lemma saveCurrent_open (hd : string) (s : nat) (f : TFile) (d : string) (i : nat)
    (ns : list MeetingNote) :
  hd <> "" ->
  saveCurrent (Some (hd, s)) [] f d i ns = ns ++ [finalizeMeetingNote (hd, s) [] f d i].
Proof.
  intro H. unfold saveCurrent, truthy. simpl.
  apply String.eqb_neq in H. rewrite H. reflexivity.
Qed.

(** C4: every note has start line < end line (also the note closed at the
    end of the document, whose end is the line count), a note whose end is
    the line after its heading has an empty body, and a child heading
    followed directly by another child heading, by a closing H2 line or by
    the end of the document yields such a note. *)
Theorem note_spans_valid (settings : ReflectorSettings) (f : TFile) (lines : list string) :
  (forall n, In n (parseLines settings f lines) ->
     lineStart n < lineEnd n /\ (lineEnd n = S (lineStart n) -> content n = "")) /\
  (forall pre l rest,
     let h := trim (meetingNotesHeader settings) in
     lines = pre ++ l :: rest ->
     inNotesSection (loop h f (basename f) 0 pre initState) = true ->
     trim l <> h -> startsWith (trim l) "### " = true ->
     match rest with
     | [] => True
     | l' :: _ => trim l' <> h /\
                  (startsWith (trim l') "### " = true \/ startsWith (trim l') "## " = true)
     end ->
     exists n, In n (parseLines settings f lines) /\ lineStart n = List.length pre /\
               lineEnd n = S (List.length pre) /\ content n = "").
Proof.
  split.
  - intros n Hn. pose proof (parse_good settings f lines) as G.
    rewrite Forall_forall in G. destruct (G n Hn) as (H1 & _ & H3 & _). auto.
  - intros pre l rest h Hlines Hin Hne Hch Hnext. subst lines.
    unfold parseLines. fold h. rewrite loop_app, loop_cons.
    set (d := basename f) in *.
    set (st := loop h f d 0 pre initState) in *.
    pose proof (child_heading_nonempty l Hch) as Hhd.
    rewrite step_open by (assumption || apply child_not_h2, Hch).
    rewrite Nat.add_0_l.
    set (i := List.length pre).
    set (hd := trim (slice_from 4 (trim l))) in *.
    set (ns1 := saveCurrent (currentNote st) (currentContent st) f d i (meetingNotes st)).
    set (nA := finalizeMeetingNote (hd, i) [] f d (S i)).
    assert (HnA : lineStart nA = i /\ lineEnd nA = S i /\ content nA = "")
      by (repeat split).
    destruct rest as [|l' rest].
    + cbn [loop currentNote currentContent meetingNotes].
      rewrite saveCurrent_open by exact Hhd.
      exists (finalizeMeetingNote (hd, i) [] f d (List.length (pre ++ [l]))).
      rewrite length_app. simpl. rewrite Nat.add_1_r.
      split; [apply in_or_app; right; left; reflexivity | repeat split].
    + destruct Hnext as [Hne' Hnext].
      assert (K : meetingNotes (step h f d (S i) l' (mkPS true (Some (hd, i)) [] ns1))
                  = ns1 ++ [nA]).
      { destruct Hnext as [Ho|Hc].
        - rewrite step_open by (reflexivity || assumption || apply child_not_h2, Ho).
          simpl. apply saveCurrent_open, Hhd.
        - rewrite step_close by (reflexivity || assumption).
          simpl. apply saveCurrent_open, Hhd. }
      rewrite loop_cons.
      destruct (loop_notes_prefix h f d (S (S i)) rest
                  (step h f d (S i) l' (mkPS true (Some (hd, i)) [] ns1))) as [suf Es].
      rewrite K in Es.
      set (stF := loop h f d (S (S i)) rest
                    (step h f d (S i) l' (mkPS true (Some (hd, i)) [] ns1))) in *.
      destruct (saveCurrent_prefix f d (currentNote stF) (currentContent stF)
                  (List.length (pre ++ l :: l' :: rest)) (meetingNotes stF)) as [suf2 E2].
      rewrite E2, Es. exists nA. split; [|exact HnA].
      apply in_or_app; left. apply in_or_app; left. apply in_or_app; right. left; reflexivity.
Qed.

Lemma note_spans_valid_witness :
  exists n, In n (parseLines defaults (doc "") ["## Notes"; "### A"; "### B"]) /\
            lineStart n = 1 /\ lineEnd n = 2 /\ content n = "".
Proof.
  apply (proj2 (note_spans_valid defaults (doc "") ["## Notes"; "### A"; "### B"])
           ["## Notes"] "### A" ["### B"]).
  - reflexivity.
  - reflexivity.
  - vm_compute. discriminate.
  - reflexivity.
  - split; [vm_compute; discriminate | left; reflexivity].
Defined.

Lemma drop_ws_all_ws (x y : list ascii) :
  forallb is_ws x = true -> drop_ws (x ++ y) = drop_ws y.
Proof.
  induction x as [|c x IH]; intro H; simpl in *; [reflexivity|].
  apply andb_true_iff in H as [H1 H2]. rewrite H1. apply IH, H2.
Qed.

Lemma forallb_rev {A} (p : A -> bool) (l : list A) :
  forallb p (rev l) = forallb p l.
Proof.
  induction l as [|a l IH]; simpl; [reflexivity|].
  rewrite forallb_app, IH. simpl. rewrite andb_true_r, andb_comm. reflexivity.
Qed.

Lemma list_ascii_append (s t : string) :
  list_ascii_of_string (String.append s t) = list_ascii_of_string s ++ list_ascii_of_string t.
Proof. induction s as [|c s IH]; simpl; [reflexivity | rewrite IH; reflexivity]. Qed.

(** A line made of ["### "] and spaces trims to ["###"]. *)
Lemma trim_marker_spaces (w : string) :
  forallb is_ws (list_ascii_of_string w) = true ->
  trim (String.append "### " w) = "###".
Proof.
  intro Hw. unfold trim. rewrite list_ascii_append. simpl.
  rewrite <- !app_assoc. simpl.
  rewrite drop_ws_all_ws by (rewrite forallb_rev; exact Hw). reflexivity.
Qed.

(** C10 (as the code has it): every note has a non-empty heading, because
    the heading of every child heading line is non-empty; a line of
    ["### "] followed only by spaces trims to ["###"], is no child heading,
    opens no note, and inside the section it is appended to the body of the
    open note. *)
Theorem note_heading_nonempty (settings : ReflectorSettings) (f : TFile)
    (lines : list string) :
  (forall n, In n (parseLines settings f lines) -> heading n <> "") /\
  (forall l, startsWith (trim l) "### " = true -> trim (slice_from 4 (trim l)) <> "") /\
  (forall h d i w st hd s,
     forallb is_ws (list_ascii_of_string w) = true -> h <> "###" ->
     inNotesSection st = true -> currentNote st = Some (hd, s) ->
     step h f d i (String.append "### " w) st =
     mkPS true (Some (hd, s)) (currentContent st ++ [String.append "### " w])
          (meetingNotes st)).
Proof.
  split; [|split].
  - intros n Hn. pose proof (parse_good settings f lines) as G.
    rewrite Forall_forall in G. destruct (G n Hn) as (_ & H2 & _). exact H2.
  - exact child_heading_nonempty.
  - intros h d i w st hd s Hw Hh Hin Hcur.
    rewrite step_body; rewrite ?trim_marker_spaces by exact Hw;
      try reflexivity; try assumption.
    + rewrite Hcur. reflexivity.
    + intro E. apply Hh. symmetry. exact E.
Qed.

Lemma note_heading_nonempty_witness :
  step "## Notes" (doc "") "2024-01-15" 2 "###   " (mkPS true (Some ("A", 1)) [] []) =
  mkPS true (Some ("A", 1)) ["###   "] [].
Proof.
  exact (proj2 (proj2 (note_heading_nonempty defaults (doc "") []))
           "## Notes" "2024-01-15" 2 "  " (mkPS true (Some ("A", 1)) [] []) "A" 1
           eq_refl ltac:(discriminate) eq_refl eq_refl).
Defined.

(** C10 fails: the line ["###   "] opens no note; it and the line after it
    are body lines of the open note ["A"]. *)
Lemma marker_spaces_counterexample :
  exists n, In n (parseLines defaults (doc "") ["## Notes"; "### A"; "###   "; "x"]) /\
            heading n = "A" /\ content n = join_lines ["###   "; "x"].
Proof. eexists. split; [left; reflexivity | split; reflexivity]. Qed.

Lemma standup_tag_scan (c : string) :
  tagMatches (String.append "Standup #team #daily-sync" (String.append nl_s c)) =
  ["#team"; "#daily-sync"] ++ tagMatches c.
Proof. reflexivity. Qed.

(** Heading and tags of a note opened by the standup line. *)
Definition standupShape (n : MeetingNote) : Prop :=
  heading n = "Standup #team #daily-sync" /\
  firstn 2 (tags n) = ["#team"; "#daily-sync"] /\
  (tagMatches (content n) = [] -> tags n = ["#team"; "#daily-sync"]).

Lemma standup_note_facts (settings : ReflectorSettings) (f : TFile)
    (lines : list string) (n : MeetingNote) :
  In n (parseLines settings f lines) ->
  nth (lineStart n) lines "" = "### Standup #team #daily-sync" ->
  standupShape n.
Proof.
  intros Hn Hl. pose proof (parse_good settings f lines) as G.
  rewrite Forall_forall in G. destruct (G n Hn) as (_ & _ & _ & Hh & Ht).
  rewrite Hl in Hh.
  assert (Hh' : heading n = "Standup #team #daily-sync") by (rewrite Hh; reflexivity).
  clear Hh. rename Hh' into Hh.
  assert (Ht' : tags n = set_of_list (["#team"; "#daily-sync"] ++ tagMatches (content n))).
  { rewrite Ht, Hh. unfold extractTags. rewrite standup_tag_scan. reflexivity. }
  unfold set_of_list in Ht'. rewrite fold_left_app in Ht'. simpl in Ht'.
  split; [exact Hh|split].
  - destruct (set_fold_prefix (tagMatches (content n)) ["#team"; "#daily-sync"])
      as [suf E]. rewrite Ht', E. reflexivity.
  - intro E. rewrite Ht', E. reflexivity.
Qed.

Section ParserKeep.
Variable h : string.
Variable f : TFile.
Variable d : string.
Variable p : string * nat.
Hypothesis Hp : truthy (fst p) = true.

(** The note [p] is open, or a note with its heading and start line has
    been produced. *)
Definition keeps (st : ParseState) : Prop :=
  currentNote st = Some p \/
  exists n, In n (meetingNotes st) /\ heading n = fst p /\ lineStart n = snd p.

Lemma saveCurrent_keeps (cur : option (string * nat)) (cc : list string) (j : nat)
    (ns : list MeetingNote) :
  (cur = Some p \/ exists n, In n ns /\ heading n = fst p /\ lineStart n = snd p) ->
  exists n, In n (saveCurrent cur cc f d j ns) /\ heading n = fst p /\ lineStart n = snd p.
Proof.
  intros [E|(n & Hn & H1 & H2)].
  - subst cur. unfold saveCurrent. rewrite Hp. exists (finalizeMeetingNote p cc f d j).
    split; [apply in_or_app; right; left; reflexivity | split; reflexivity].
  - exists n. split; [|split; assumption].
    destruct (saveCurrent_prefix f d cur cc j ns) as [suf E]. rewrite E.
    apply in_or_app; left; exact Hn.
Qed.

Lemma step_keeps (i : nat) (l : string) (st : ParseState) :
  keeps st -> keeps (step h f d i l st).
Proof.
  unfold keeps. intros K. unfold step. cbv zeta.
  destruct (String.eqb (trim l) h); [exact K|].
  destruct (inNotesSection st && startsWith (trim l) "## " && negb false).
  { right. apply saveCurrent_keeps. exact K. }
  destruct (negb (inNotesSection st)); [exact K|].
  destruct (startsWith (trim l) "### ").
  { right. apply saveCurrent_keeps. exact K. }
  destruct (currentNote st) eqn:Ec; [exact K | rewrite Ec; exact K].
Qed.

Lemma loop_keeps (ls : list string) : forall (i : nat) (st : ParseState),
  keeps st -> keeps (loop h f d i ls st).
Proof.
  induction ls as [|l ls IH]; intros i st K; simpl; [exact K|].
  apply IH, step_keeps, K.
Qed.
End ParserKeep.

(** C2 (as the code has it): a note whose start line is the child heading
    line ["### Standup #team #daily-sync"] has the heading
    ["Standup #team #daily-sync"] (only the ["### "] marker is stripped and
    the hashtags stay) and its tag list starts with
    ["#team"; "#daily-sync"]; it is exactly that list when the body
    contains no hashtag.  And such a line met inside the parent section
    (and not itself the parent heading) does yield a note in the output,
    starting at that line. *)
Theorem standup_heading_tags (settings : ReflectorSettings) (f : TFile) :
  (forall (lines : list string) (n : MeetingNote),
     In n (parseLines settings f lines) ->
     nth (lineStart n) lines "" = "### Standup #team #daily-sync" ->
     standupShape n) /\
  (forall (pre post : list string),
     let h := trim (meetingNotesHeader settings) in
     inNotesSection (loop h f (basename f) 0 pre initState) = true ->
     "### Standup #team #daily-sync" <> h ->
     exists n, In n (parseLines settings f (pre ++ "### Standup #team #daily-sync" :: post)) /\
               lineStart n = List.length pre /\ standupShape n).
Proof.
  split; [exact (standup_note_facts settings f)|].
  intros pre post h Hin Hne.
  set (line := "### Standup #team #daily-sync").
  set (p := (trim (slice_from 4 (trim line)), 0 + List.length pre)).
  assert (Hp : truthy (fst p) = true) by reflexivity.
  assert (Hne' : trim line <> h) by exact Hne.
  unfold parseLines. fold h.
  rewrite loop_app, loop_cons.
  rewrite (step_open h f (basename f) (0 + List.length pre) line _ Hne' Hin eq_refl eq_refl).
  fold p.
  assert (K : keeps p (mkPS true (Some p) []
                (saveCurrent (currentNote (loop h f (basename f) 0 pre initState))
                   (currentContent (loop h f (basename f) 0 pre initState)) f (basename f)
                   (0 + List.length pre) (meetingNotes (loop h f (basename f) 0 pre initState)))))
    by (left; reflexivity).
  pose proof (loop_keeps h f (basename f) p Hp post (S (0 + List.length pre)) _ K) as K'.
  destruct (saveCurrent_keeps f (basename f) p Hp _
              (currentContent (loop h f (basename f) (S (0 + List.length pre)) post
                 (mkPS true (Some p) [] (saveCurrent (currentNote (loop h f (basename f) 0 pre initState))
                   (currentContent (loop h f (basename f) 0 pre initState)) f (basename f)
                   (0 + List.length pre) (meetingNotes (loop h f (basename f) 0 pre initState))))))
              (List.length (pre ++ line :: post)) _ K') as (n & Hn & Hh & Hs).
  exists n. split; [exact Hn|].
  assert (Hs' : lineStart n = List.length pre) by (rewrite Hs; reflexivity).
  split; [exact Hs'|].
  apply (standup_note_facts settings f (pre ++ line :: post) n).
  - unfold parseLines. fold h. rewrite loop_app, loop_cons.
    rewrite (step_open h f (basename f) (0 + List.length pre) line _ Hne' Hin eq_refl eq_refl).
    exact Hn.
  - rewrite Hs'. apply nth_middle.
Qed.

Lemma standup_heading_tags_witness :
  let ns := parseLines defaults (doc "") ["## Notes"; "### Standup #team #daily-sync"; "notes"] in
  standupShape (nth 0 ns noNote) /\
  exists n, In n (parseLines defaults (doc "")
                    (["## Notes"; "### A"] ++ "### Standup #team #daily-sync" :: ["notes #x"])) /\
            lineStart n = 2 /\ standupShape n.
Proof.
  destruct (standup_heading_tags defaults (doc "")) as [H1 H2]. split.
  - apply (H1 ["## Notes"; "### Standup #team #daily-sync"; "notes"]).
    + left. reflexivity.
    + reflexivity.
  - apply (H2 ["## Notes"; "### A"] ["notes #x"]).
    + reflexivity.
    + vm_compute. discriminate.
Defined.

(** C2 fails on the heading: it keeps the hashtags. *)
Lemma standup_heading_counterexample :
  exists n, In n (parseLines defaults (doc "") ["## Notes"; "### Standup #team #daily-sync"]) /\
            heading n <> "Standup" /\ tags n = ["#team"; "#daily-sync"].
Proof.
  eexists. split; [left; reflexivity|]. split; [vm_compute; discriminate | reflexivity].
Qed.

(** ** Suggestion engine: scores *)

Lemma prefix_refl (s : string) : String.prefix s s = true.
Proof.
  induction s as [|c s IH]; simpl; [reflexivity|].
  destruct (ascii_dec c c) as [_|n]; [exact IH | contradiction n; reflexivity].
Qed.

Lemma includes_refl (s : string) : includes s s = true.
Proof. destruct s; [reflexivity|]. unfold includes. rewrite prefix_refl. reflexivity. Qed.

Section Scores.
Variables (whole exact part : nat) (tagName : string) (tagParts : list string).

Lemma parts_shift (token : string) (ps : list string) (a : nat) :
  fold_left (fun score p =>
               if String.eqb p token then score + exact
               else if includes p token || includes token p then score + part
               else score) ps a =
  a + fold_left (fun score p =>
               if String.eqb p token then score + exact
               else if includes p token || includes token p then score + part
               else score) ps 0.
Proof.
  revert a; induction ps as [|p ps IH]; intro a; simpl; [lia|].
  destruct (String.eqb p token); [rewrite (IH (a + exact)), (IH exact); lia|].
  destruct (includes p token || includes token p);
    [rewrite (IH (a + part)), (IH part); lia | rewrite (IH a); lia].
Qed.

Lemma tokenScore_shift (a : nat) (token : string) :
  tokenScore whole exact part tagName tagParts a token =
  a + tokenScore whole exact part tagName tagParts 0 token.
Proof.
  unfold tokenScore.
  destruct (includes tagName token || includes token tagName).
  - rewrite (parts_shift _ _ (a + whole)), (parts_shift _ _ (0 + whole)); lia.
  - rewrite (parts_shift _ _ a); reflexivity.
Qed.

Lemma tokens_shift (ts : list string) (a : nat) :
  fold_left (tokenScore whole exact part tagName tagParts) ts a =
  a + fold_left (tokenScore whole exact part tagName tagParts) ts 0.
Proof.
  revert a; induction ts as [|t ts IH]; intro a; simpl; [lia|].
  rewrite IH, (IH (tokenScore _ _ _ _ _ 0 t)), tokenScore_shift. lia.
Qed.

Lemma tokens_ge_member (ts : list string) (w : string) (a : nat) :
  In w ts ->
  a + tokenScore whole exact part tagName tagParts 0 w <=
  fold_left (tokenScore whole exact part tagName tagParts) ts a.
Proof.
  revert a; induction ts as [|t ts IH]; intros a Hw; [destruct Hw|].
  simpl. destruct Hw as [<-|Hw].
  - rewrite tokens_shift, (tokenScore_shift a). lia.
  - pose proof (IH 0 Hw) as G. rewrite tokens_shift, (tokenScore_shift a). lia.
Qed.
End Scores.

Lemma parts_heading_dominates (token : string) (ps : list string) (a b : nat) :
  a + 7 <= b ->
  fold_left (fun score p =>
               if String.eqb p token then score + 5
               else if includes p token || includes token p then score + 1
               else score) ps a + 7 <=
  fold_left (fun score p =>
               if String.eqb p token then score + 15
               else if includes p token || includes token p then score + 5
               else score) ps b.
Proof.
  revert a b; induction ps as [|p ps IH]; intros a b H; simpl; [exact H|].
  apply IH. destruct (String.eqb p token); [lia|].
  destruct (includes p token || includes token p); lia.
Qed.

(** A token that is a substring of the tag name is worth at least 7 more
    as a heading token than as a body token. *)
Lemma heading_token_dominates (t w : string) :
  includes (tagNameOf t) w = true ->
  calculateTagScore t [] [w] + 7 <= calculateTagScore t [w] [].
Proof.
  intro Hw. unfold calculateTagScore, tokenScore. simpl.
  rewrite Hw. simpl. apply parts_heading_dominates. lia.
Qed.

(** The [suggestions] array built by the loop of [suggestTags]. *)
Lemma suggest_fold (H B A E : list string) (l : list string) (acc : list TagSuggestion) :
  fold_left (suggestStep H B A E) l acc =
  acc ++ map (fun t => mkSuggestion t (calculateTagScore t H B) (getMatchReason t A))
             (filter (fun t => negb (setHas E (toLowerCase t)) &&
                               (0 <? calculateTagScore t H B)) l).
Proof.
  revert acc; induction l as [|t l IH]; intro acc; simpl; [symmetry; apply app_nil_r|].
  rewrite IH. unfold suggestStep.
  destruct (setHas E (toLowerCase t)); simpl; [reflexivity|].
  destruct (0 <? calculateTagScore t H B); simpl; [|reflexivity].
  rewrite <- app_assoc. reflexivity.
Qed.

Lemma In_firstn_in {A} (n : nat) (l : list A) (x : A) : In x (firstn n l) -> In x l.
Proof.
  intro Hx. rewrite <- (firstn_skipn n l). apply in_or_app. left; exact Hx.
Qed.

Lemma suggestTags_In (v : Vault) (note : MeetingNote) (s : TagSuggestion) :
  In s (suggestTags v note) ->
  In (tag s) (getAllTagNames v) /\
  setHas (set_of_list (map toLowerCase (tags note))) (toLowerCase (tag s)) = false /\
  score s = calculateTagScore (tag s) (tokenize (heading note)) (tokenize (content note)) /\
  0 < score s.
Proof.
  unfold suggestTags. cbv zeta. intro Hs.
  apply In_firstn_in in Hs.
  apply (Permutation_in _ (sort_by_perm _ scoreCmp _)) in Hs.
  rewrite suggest_fold in Hs. simpl in Hs.
  apply in_map_iff in Hs as [t [<- Ht]]. apply filter_In in Ht as [Ht Hp].
  apply andb_true_iff in Hp as [Hp Hsc]. apply negb_true_iff in Hp.
  apply Nat.ltb_lt in Hsc. simpl. repeat split; assumption.
Qed.

(** C7: every suggestion has the positive score its tag gets from the
    note's heading and body tokens, so a tag of score 0 is never suggested;
    and a tag whose bare name is one of the heading tokens scores strictly
    more than the same tag matched against that single token in the body
    alone. *)
Theorem suggest_score_gate (v : Vault) (note : MeetingNote) :
  (forall s, In s (suggestTags v note) ->
     score s = calculateTagScore (tag s) (tokenize (heading note)) (tokenize (content note))
     /\ 0 < score s) /\
  (forall t, calculateTagScore t (tokenize (heading note)) (tokenize (content note)) = 0 ->
     ~ In t (map tag (suggestTags v note))) /\
  (forall t w headingTokens contentTokens,
     tagNameOf t = w -> In w headingTokens ->
     calculateTagScore t [] [w] < calculateTagScore t headingTokens contentTokens).
Proof.
  split; [|split].
  - intros s Hs. apply suggestTags_In in Hs. tauto.
  - intros t H0 Hin. apply in_map_iff in Hin as [s [<- Hs]].
    apply suggestTags_In in Hs as [_ [_ [E P]]]. lia.
  - intros t w Hh Hb Hn Hw.
    assert (Hi : includes (tagNameOf t) w = true) by (rewrite Hn; apply includes_refl).
    pose proof (heading_token_dominates t w Hi) as D.
    unfold calculateTagScore in *. cbv zeta in *. simpl in D |- *.
    rewrite (tokens_shift 3 5 1 _ _ Hb).
    pose proof (tokens_ge_member 10 15 5 (tagNameOf t) (tagPartsOf (tagNameOf t))
                  Hh w 0 Hw) as G.
    lia.
Qed.

Lemma suggest_score_gate_witness :
  map tag (suggestTags exampleVault alphaNote) = ["#project-alpha"] /\
  calculateTagScore "#alpha" [] ["alpha"] < calculateTagScore "#alpha" ["alpha"] [].
Proof.
  split; [vm_compute; reflexivity|].
  apply (proj2 (proj2 (suggest_score_gate exampleVault alphaNote)) "#alpha" "alpha");
    [vm_compute; reflexivity | left; reflexivity].
Defined.

(** ** Suggestion engine: the candidate pool and the output shape *)

Lemma countTag_keys (k x : string) (m : list (string * nat)) :
  In x (map fst (countTag k m)) <-> x = k \/ In x (map fst m).
Proof.
  induction m as [|[k' c] r IH]; simpl; [intuition congruence|].
  destruct (String.eqb k k') eqn:E; simpl.
  - apply String.eqb_eq in E; subst k'. intuition congruence.
  - rewrite IH. tauto.
Qed.

Lemma countTag_nodup (k : string) (m : list (string * nat)) :
  NoDup (map fst m) -> NoDup (map fst (countTag k m)).
Proof.
  induction m as [|[k' c] r IH]; simpl; intro Hn.
  - constructor; [intros []| constructor].
  - inversion Hn as [|? ? Hk Hr]; subst.
    destruct (String.eqb k k') eqn:E; simpl; [exact Hn|].
    constructor; [|apply IH, Hr].
    rewrite countTag_keys. intros [->|Hin]; [|contradiction].
    rewrite String.eqb_refl in E; discriminate.
Qed.

Lemma count_fold (ts : list string) (m : list (string * nat)) :
  (forall x, In x (map fst (fold_left (fun m t => countTag t m) ts m)) <->
             In x ts \/ In x (map fst m)) /\
  (NoDup (map fst m) -> NoDup (map fst (fold_left (fun m t => countTag t m) ts m))).
Proof.
  revert m; induction ts as [|t ts IH]; intro m; simpl; [split; [tauto|auto]|].
  destruct (IH (countTag t m)) as [I N]. split.
  - intro x. rewrite I, countTag_keys. intuition congruence.
  - intro Hn. apply N, countTag_nodup, Hn.
Qed.

Lemma vault_fold (fs : list TFile) (m : list (string * nat)) :
  (forall x, In x (map fst (fold_left (fun m f =>
               match cache_tags f with
               | Some ts => fold_left (fun m t => countTag t m) ts m
               | None => m
               end) fs m)) <->
             (exists f ts, In f fs /\ cache_tags f = Some ts /\ In x ts) \/ In x (map fst m)) /\
  (NoDup (map fst m) -> NoDup (map fst (fold_left (fun m f =>
               match cache_tags f with
               | Some ts => fold_left (fun m t => countTag t m) ts m
               | None => m
               end) fs m))).
Proof.
  revert m; induction fs as [|f fs IH]; intro m; simpl.
  - split; [|auto]. intro x. split; [tauto|].
    intros [[f [ts [[] _]]]|H]; exact H.
  - destruct (cache_tags f) as [ts|] eqn:C.
    + destruct (IH (fold_left (fun m t => countTag t m) ts m)) as [I N].
      destruct (count_fold ts m) as [I' N'].
      split; [|intro Hn; apply N, N', Hn].
      intro x. rewrite I, I'. split.
      * intros [[g [us [Hg [Cg Hx]]]]|[Hx|Hx]].
        -- left. exists g, us. auto.
        -- left. exists f, ts. auto.
        -- right; exact Hx.
      * intros [[g [us [[<-|Hg] [Cg Hx]]]]|Hx].
        -- rewrite C in Cg. injection Cg as <-. right; left; exact Hx.
        -- left. exists g, us. auto.
        -- right; right; exact Hx.
    + destruct (IH m) as [I N]. split; [|exact N].
      intro x. rewrite I. split.
      * intros [[g [us [Hg [Cg Hx]]]]|Hx]; [left; exists g, us; auto | right; exact Hx].
      * intros [[g [us [[<-|Hg] [Cg Hx]]]]|Hx].
        -- rewrite C in Cg; discriminate.
        -- left. exists g, us. auto.
        -- right; exact Hx.
Qed.

(** [getAllTagNames] lists each tag of the metadata cache once. *)
Lemma getAllTagNames_spec (v : Vault) :
  NoDup (getAllTagNames v) /\
  forall t, In t (getAllTagNames v) <->
            exists f ts, In f (markdownFiles v) /\ cache_tags f = Some ts /\ In t ts.
Proof.
  unfold getAllTagNames, getAllVaultTags.
  destruct (vault_fold (markdownFiles v) []) as [I N]. split.
  - apply N. constructor.
  - intro t. rewrite I. simpl. tauto.
Qed.

Lemma NoDup_firstn_of {A} (n : nat) (l : list A) : NoDup l -> NoDup (firstn n l).
Proof.
  intro Hn. rewrite <- (firstn_skipn n l) in Hn. apply NoDup_app_remove_r in Hn. exact Hn.
Qed.

Lemma scoreCmp_antisym (a b : TagSuggestion) :
  (0 < scoreCmp b a)%Z -> (scoreCmp a b <= 0)%Z.
Proof. unfold scoreCmp. lia. Qed.

(** C8: [suggestTags] returns at most 10 suggestions, in non-increasing
    order of score, with pairwise distinct tags, each of them a tag of the
    vault's metadata cache (the pool of [getAllTagNames], which lists every
    distinct cached tag once) and none equal, after lower-casing, to a
    lower-cased tag of the note. *)
Theorem suggest_tags_shape (v : Vault) (note : MeetingNote) :
  length (suggestTags v note) <= 10 /\
  Sorted (fun a b => score b <= score a) (suggestTags v note) /\
  NoDup (map tag (suggestTags v note)) /\
  (forall s, In s (suggestTags v note) ->
     In (tag s) (getAllTagNames v) /\
     ~ In (toLowerCase (tag s)) (map toLowerCase (tags note))) /\
  (forall t, In t (getAllTagNames v) <->
     exists f ts, In f (markdownFiles v) /\ cache_tags f = Some ts /\ In t ts).
Proof.
  destruct (getAllTagNames_spec v) as [ND Pool].
  split; [|split; [|split; [|split]]].
  - unfold suggestTags. apply firstn_le_length.
  - unfold suggestTags. apply sorted_firstn.
    apply (sorted_weaken (cmp_le _ scoreCmp)).
    + unfold cmp_le, scoreCmp. intros a b H. lia.
    + apply sort_by_sorted. apply scoreCmp_antisym.
  - unfold suggestTags. cbv zeta. rewrite <- firstn_map. apply NoDup_firstn_of.
    eapply Permutation_NoDup; [apply Permutation_sym, Permutation_map, sort_by_perm|].
    rewrite suggest_fold. simpl. rewrite map_map. simpl. rewrite map_id.
    apply NoDup_filter, ND.
  - intros s Hs. apply suggestTags_In in Hs as [Hp [Hx _]]. split; [exact Hp|].
    intro Hin. rewrite <- set_of_list_In, <- setHas_In in Hin. congruence.
  - exact Pool.
Qed.

(** ** Task linkage *)

Definition relatedTodoOk (note : MeetingNote) (r : RelatedTodoItem) : Prop :=
  path (todoFile (item r)) <> path (file note) /\
  (relationReason r = "shared tag" \/ relationReason r = "linked") /\
  (relationReason r = "linked" -> matchingTags r = []).

Lemma todoStep_ok (note : MeetingNote) (set : list string) (orig : list (string * string))
    (acc : list RelatedTodoItem) (todo : TodoItem) :
  (forall r, In r acc -> relatedTodoOk note r) ->
  forall r, In r (todoStep note set orig acc todo) -> relatedTodoOk note r.
Proof.
  intros Hacc r. unfold todoStep.
  destruct (String.eqb (path (todoFile todo)) (path (file note))) eqn:Ep; [apply Hacc|].
  cbv zeta.
  set (mt := if 0 <? length set then _ else []).
  assert (Hmt : (0 <? length set) = false -> mt = []).
  { intro E. unfold mt. rewrite E. reflexivity. }
  destruct (0 <? length set) eqn:Es; destruct (0 <? length mt) eqn:Em; simpl;
    destruct (todoHasLinkToNote todo note); simpl;
    intro Hr; try (apply Hacc; exact Hr);
    apply in_app_or in Hr as [Hr|[<-|[]]]; try (apply Hacc; exact Hr);
    (split; [apply String.eqb_neq, Ep | simpl]);
    try (split; [left; reflexivity | discriminate]);
    (split; [right; reflexivity | intros _]);
    try (apply Hmt; reflexivity);
    (destruct mt; [reflexivity | discriminate]).
Qed.

(** C9: every item returned by [getTodosForMeetingNote] comes from a
    document whose path differs from the note's, has the reason
    "shared tag" or "linked", and has no matching tags when its reason is
    "linked". *)
Theorem related_todos_shape (v : Vault) (note : MeetingNote) :
  forall r, In r (getTodosForMeetingNote v note) ->
    path (todoFile (item r)) <> path (file note) /\
    (relationReason r = "shared tag" \/ relationReason r = "linked") /\
    (relationReason r = "linked" -> matchingTags r = []).
Proof.
  unfold getTodosForMeetingNote. cbv zeta.
  assert (G : forall todos acc, (forall r, In r acc -> relatedTodoOk note r) ->
            forall r, In r (fold_left (todoStep note (set_of_list (map toLowerCase (tags note)))
                        (fold_left (fun m t => map_set (toLowerCase t) t m) (tags note) []))
                        todos acc) -> relatedTodoOk note r).
  { induction todos as [|t todos IH]; intros acc Hacc; simpl; [exact Hacc|].
    apply IH, todoStep_ok, Hacc. }
  apply G. intros r [].
Qed.

Lemma related_todos_shape_witness :
  exists r, In r (getTodosForMeetingNote exampleVault planningNote) /\
    path (todoFile (item r)) <> path (file planningNote) /\
    (relationReason r = "shared tag" \/ relationReason r = "linked") /\
    (relationReason r = "linked" -> matchingTags r = []).
Proof.
  exists (nth 0 (getTodosForMeetingNote exampleVault planningNote)
              (mkRelatedTodo (mkTodo "" day1 None 0) "" [])).
  assert (Hin : In (nth 0 (getTodosForMeetingNote exampleVault planningNote)
                       (mkRelatedTodo (mkTodo "" day1 None 0) "" []))
                   (getTodosForMeetingNote exampleVault planningNote))
    by (vm_compute; left; reflexivity).
  split; [exact Hin|].
  exact (related_todos_shape exampleVault planningNote _ Hin).
Defined.

Lemma suggest_tags_shape_witness :
  map tag (suggestTags exampleVault alphaNote) = ["#project-alpha"] /\
  In "#project-alpha" (getAllTagNames exampleVault) /\
  ~ In (toLowerCase "#project-alpha") (map toLowerCase (tags alphaNote)).
Proof.
  assert (Hin : In (mkSuggestion "#project-alpha"
                      (calculateTagScore "#project-alpha" (tokenize (heading alphaNote))
                                         (tokenize (content alphaNote)))
                      (getMatchReason "#project-alpha"
                         (tokenize (heading alphaNote) ++ tokenize (content alphaNote))))
                   (suggestTags exampleVault alphaNote))
    by (vm_compute; left; reflexivity).
  split; [vm_compute; reflexivity|].
  exact (proj1 (proj2 (proj2 (proj2 (suggest_tags_shape exampleVault alphaNote)))) _ Hin).
Defined.

Lemma related_notes_order_witness :
  tags planningNote <> [] /\
  Permutation (getRelatedMeetingNotes exampleVault defaults planningNote)
              (filter (relatedFilter planningNote (set_of_list (tags planningNote)))
                      (getAllMeetingNotes exampleVault defaults)).
Proof.
  assert (H : tags planningNote <> []) by (vm_compute; discriminate).
  split; [exact H|].
  exact (proj2 (proj1 (proj2 (related_notes_order exampleVault defaults planningNote)) H)).
Defined.

(** * Further properties of the code *)

Lemma firstn_snoc {A} (k : nat) (l : list A) (x : A) :
  k < List.length l -> firstn (S k) l = firstn k l ++ [nth k l x].
Proof.
  revert l; induction k as [|k IH]; intros [|a l] H; simpl in *; try lia.
  - reflexivity.
  - rewrite (IH l) by lia. reflexivity.
Qed.

Section ParserLayout.
Variable h : string.
Variable f : TFile.
Variable d : string.
Variable lines : list string.

Definition bodyLines (a b : nat) : list string :=
  filter (fun l => negb (String.eqb (trim l) h)) (firstn (b - a) (skipn a lines)).

Definition noteOk (n : MeetingNote) : Prop :=
  file n = f /\ date n = d /\
  content n = join_lines (bodyLines (S (lineStart n)) (lineEnd n)).

Fixpoint lay (lo : nat) (ns : list MeetingNote) (hi : nat) : Prop :=
  match ns with
  | [] => lo <= hi
  | n :: r => lo <= lineStart n /\ lineStart n < lineEnd n /\ noteOk n /\
              lay (lineEnd n) r hi
  end.

Definition layInv (i : nat) (st : ParseState) : Prop :=
  (inNotesSection st = false -> currentNote st = None) /\
  match currentNote st with
  | Some (_, s) => lay 0 (meetingNotes st) s /\ s < i /\
                   currentContent st = bodyLines (S s) i
  | None => lay 0 (meetingNotes st) i
  end.

Lemma lay_mono (lo hi hi' : nat) (ns : list MeetingNote) :
  lay lo ns hi -> hi <= hi' -> lay lo ns hi'.
Proof.
  revert lo; induction ns as [|n r IH]; simpl; intros lo H Hh; [lia|].
  destruct H as (H1 & H2 & H3 & H4). exact (conj H1 (conj H2 (conj H3 (IH _ H4 Hh)))).
Qed.

Lemma lay_snoc (lo s hi : nat) (ns : list MeetingNote) (n : MeetingNote) :
  lay lo ns s -> s <= lineStart n -> lineStart n < lineEnd n -> noteOk n ->
  lineEnd n <= hi -> lay lo (ns ++ [n]) hi.
Proof.
  revert lo; induction ns as [|m r IH]; simpl; intros lo H Hs Hn Ho He.
  - refine (conj _ (conj Hn (conj Ho _))); lia.
  - destruct H as (H1 & H2 & H3 & H4).
    exact (conj H1 (conj H2 (conj H3 (IH _ H4 Hs Hn Ho He)))).
Qed.

Lemma bodyLines_empty (a : nat) : bodyLines a a = [].
Proof. unfold bodyLines. rewrite Nat.sub_diag. reflexivity. Qed.

Lemma bodyLines_snoc (a i : nat) :
  a <= i -> i < List.length lines ->
  bodyLines a (S i) =
  bodyLines a i ++ (if negb (String.eqb (trim (nth i lines "")) h)
                    then [nth i lines ""] else []).
Proof.
  intros Ha Hi. unfold bodyLines.
  replace (S i - a) with (S (i - a)) by lia.
  rewrite (firstn_snoc _ _ "") by (rewrite length_skipn; lia).
  rewrite filter_app, nth_skipn. replace (a + (i - a)) with i by lia.
  simpl. destruct (negb _); reflexivity.
Qed.

Lemma saveCurrent_lay (cur : option (string * nat)) (cc : list string) (i : nat)
    (ns : list MeetingNote) :
  match cur with
  | Some (_, s) => lay 0 ns s /\ s < i /\ cc = bodyLines (S s) i
  | None => lay 0 ns i
  end ->
  lay 0 (saveCurrent cur cc f d i ns) i.
Proof.
  destruct cur as [[hd s]|]; simpl; [|auto].
  intros (H1 & H2 & H3). destruct (truthy hd).
  - eapply lay_snoc; [exact H1 | simpl; lia | simpl; lia | | simpl; lia].
    unfold noteOk, finalizeMeetingNote; simpl. rewrite H3. auto.
  - eapply lay_mono; [exact H1 | lia].
Qed.

Lemma step_layout (i : nat) (l : string) (st : ParseState) :
  nth i lines "" = l -> i < List.length lines ->
  layInv i st -> layInv (S i) (step h f d i l st).
Proof.
  intros Hl Hi [Hsec Hcur]. destruct st as [inn cur cc ns].
  unfold layInv in *; simpl in *. unfold step; simpl.
  destruct (String.eqb (trim l) h) eqn:Eh; simpl.
  - split; [discriminate|].
    destruct cur as [[hd s]|].
    + destruct Hcur as (H1 & H2 & H3). repeat split; [exact H1 | lia |].
      rewrite bodyLines_snoc by lia. rewrite Hl, Eh. simpl. rewrite app_nil_r. exact H3.
    + eapply lay_mono; [exact Hcur | lia].
  - destruct (inn && startsWith (trim l) "## ") eqn:Ec; simpl.
    + split; [reflexivity|]. eapply lay_mono; [apply saveCurrent_lay, Hcur | lia].
    + destruct inn eqn:Ei; simpl.
      * destruct (startsWith (trim l) "### ") eqn:E3; simpl.
        -- split; [discriminate|].
           refine (conj (saveCurrent_lay _ _ _ _ Hcur) (conj (Nat.lt_succ_diag_r i) _)).
           symmetry; apply bodyLines_empty.
        -- destruct cur as [[hd s]|]; simpl.
           ++ split; [discriminate|]. destruct Hcur as (H1 & H2 & H3).
              repeat split; [exact H1 | lia |].
              rewrite bodyLines_snoc by lia. rewrite Hl, Eh, H3. reflexivity.
           ++ split; [discriminate|]. eapply lay_mono; [exact Hcur | lia].
      * rewrite (Hsec eq_refl) in Hcur |- *. split; [auto|].
        eapply lay_mono; [exact Hcur | lia].
Qed.

Lemma loop_layout (pre ls : list string) (st : ParseState) :
  pre ++ ls = lines -> layInv (List.length pre) st ->
  layInv (List.length pre + List.length ls) (loop h f d (List.length pre) ls st).
Proof.
  revert pre st; induction ls as [|l ls IH]; intros pre st Hpl Hinv; simpl.
  - rewrite Nat.add_0_r. exact Hinv.
  - replace (List.length pre + S (List.length ls))
      with (List.length (pre ++ [l]) + List.length ls)
      by (rewrite length_app; simpl; lia).
    replace (S (List.length pre)) with (List.length (pre ++ [l]))
      by (rewrite length_app; simpl; lia).
    apply IH; [rewrite <- app_assoc; exact Hpl|].
    rewrite length_app; simpl. rewrite Nat.add_1_r. apply step_layout; [| |exact Hinv].
    + rewrite <- Hpl, app_nth2, Nat.sub_diag by lia. reflexivity.
    + rewrite <- Hpl, length_app. simpl. lia.
Qed.

Lemma lay_bound (lo hi : nat) (ns : list MeetingNote) : lay lo ns hi -> lo <= hi.
Proof.
  revert lo; induction ns as [|m r IH]; simpl; intros lo H; [exact H|].
  destruct H as (H1 & H2 & _ & H4). apply IH in H4. lia.
Qed.

Lemma lay_In (lo hi : nat) (ns : list MeetingNote) (n : MeetingNote) :
  lay lo ns hi -> In n ns ->
  lo <= lineStart n /\ lineStart n < lineEnd n /\ lineEnd n <= hi /\ noteOk n.
Proof.
  revert lo; induction ns as [|m r IH]; simpl; intros lo H Hn; [destruct Hn|].
  destruct H as (H1 & H2 & H3 & H4). destruct Hn as [<-|Hn].
  - apply lay_bound in H4. exact (conj H1 (conj H2 (conj H4 H3))).
  - destruct (IH _ H4 Hn) as (G1 & G2 & G3 & G4). refine (conj _ (conj G2 (conj G3 G4))). lia.
Qed.

Lemma lay_pair (lo hi : nat) (pre mid post : list MeetingNote) (n1 n2 : MeetingNote) :
  lay lo (pre ++ n1 :: mid ++ n2 :: post) hi -> lineEnd n1 <= lineStart n2.
Proof.
  revert lo; induction pre as [|m r IH]; simpl; intros lo H.
  - destruct H as (_ & _ & _ & H).
    apply (lay_In _ _ _ n2) in H as (G & _); [exact G|].
    apply in_or_app. right. left. reflexivity.
  - destruct H as (_ & _ & _ & H). exact (IH _ H).
Qed.

Lemma lay_find (lo hi c : nat) (ns : list MeetingNote) (n : MeetingNote) :
  lay lo ns hi -> In n ns -> lineStart n <= c < lineEnd n ->
  find (fun n => (lineStart n <=? c) && (c <? lineEnd n)) ns = Some n.
Proof.
  revert lo; induction ns as [|m r IH]; simpl; intros lo H Hn Hc; [destruct Hn|].
  destruct H as (H1 & H2 & H3 & H4).
  destruct ((lineStart m <=? c) && (c <? lineEnd m)) eqn:E.
  - apply andb_true_iff in E as [E1 E2]. apply Nat.leb_le in E1. apply Nat.ltb_lt in E2.
    destruct Hn as [->|Hn]; [reflexivity|].
    apply (lay_In _ _ _ n) in H4 as (G & _); [lia | exact Hn].
  - destruct Hn as [<-|Hn].
    + apply andb_false_iff in E as [E|E];
        [apply Nat.leb_gt in E | apply Nat.ltb_ge in E]; lia.
    + exact (IH _ H4 Hn Hc).
Qed.
End ParserLayout.

Lemma parse_layout (settings : ReflectorSettings) (f : TFile) (lines : list string) :
  lay (trim (meetingNotesHeader settings)) f (basename f) lines 0
      (parseLines settings f lines) (List.length lines).
Proof.
  unfold parseLines.
  pose proof (loop_layout (trim (meetingNotesHeader settings)) f (basename f) lines
                [] lines initState eq_refl) as G.
  simpl in G. destruct G as [G1 G2].
  { split; [reflexivity | simpl; lia]. }
  apply saveCurrent_lay. destruct (currentNote _) as [[hd s]|]; exact G2.
Qed.

(** Every note [parseDailyNote] returns spans a nonempty range of lines
    inside the document, and the notes come in document order with
    disjoint spans: a note ends at or before the start of any later note. *)
Theorem parse_notes_ordered (settings : ReflectorSettings) (f : TFile) :
  (forall n, In n (parseDailyNote settings f) ->
     lineStart n < lineEnd n /\ lineEnd n <= List.length (split_lines (contents f))) /\
  (forall pre n1 mid n2 post,
     parseDailyNote settings f = pre ++ n1 :: mid ++ n2 :: post ->
     lineEnd n1 <= lineStart n2).
Proof.
  pose proof (parse_layout settings f (split_lines (contents f))) as L.
  unfold parseDailyNote. split.
  - intros n Hn. destruct (lay_In _ _ _ _ _ _ _ _ L Hn) as (_ & G1 & G2 & _). lia.
  - intros pre n1 mid n2 post E. rewrite E in L. exact (lay_pair _ _ _ _ _ _ _ _ _ _ _ L).
Qed.

Lemma parse_notes_ordered_witness :
  lineEnd (nth 0 (parseDailyNote defaults twoNotesDay) noNote) <=
  lineStart (nth 1 (parseDailyNote defaults twoNotesDay) noNote).
Proof.
  apply (proj2 (parse_notes_ordered defaults twoNotesDay) [] _ [] _ []).
  vm_compute. reflexivity.
Defined.

(** Each parsed note belongs to the parsed file and carries its basename as
    date; its heading is the trimmed text after the [### ] marker of its
    start line; its content is its body lines joined, without the lines
    that equal the parent heading after trimming; its tags are
    [extractTags] of heading, newline and content. *)
Theorem parse_note_fields (settings : ReflectorSettings) (f : TFile) :
  forall n, In n (parseDailyNote settings f) ->
    let lines := split_lines (contents f) in
    file n = f /\ date n = basename f /\
    heading n = trim (slice_from 4 (trim (nth (lineStart n) lines ""))) /\
    content n =
      join_lines (filter (fun l => negb (String.eqb (trim l) (trim (meetingNotesHeader settings))))
                         (firstn (lineEnd n - S (lineStart n)) (skipn (S (lineStart n)) lines))) /\
    tags n = extractTags (String.append (heading n) (String.append nl_s (content n))).
Proof.
  intros n Hn. cbv zeta.
  pose proof (parse_layout settings f (split_lines (contents f))) as L.
  pose proof (parse_good settings f (split_lines (contents f))) as G.
  unfold parseDailyNote in Hn.
  destruct (lay_In _ _ _ _ _ _ _ _ L Hn) as (_ & _ & _ & (F & D & C)).
  rewrite Forall_forall in G. destruct (G n Hn) as (_ & _ & _ & Hh & Ht).
  repeat split; assumption.
Qed.

Lemma parse_note_fields_witness :
  content (nth 0 (parseDailyNote defaults twoNotesDay) noNote) = "body".
Proof.
  destruct (parse_note_fields defaults twoNotesDay (nth 0 (parseDailyNote defaults twoNotesDay) noNote))
    as (_ & _ & _ & C & _).
  - vm_compute. left. reflexivity.
  - rewrite C. vm_compute. reflexivity.
Defined.

(** [getMeetingNoteAtCursor] finds a note exactly when the file has a
    daily-note name and the cursor line lies in the note's span
    [lineStart, lineEnd). *)
Theorem note_at_cursor_spec (settings : ReflectorSettings) (f : TFile) (c : nat)
    (n : MeetingNote) :
  getMeetingNoteAtCursor settings f c = Some n <->
  isDailyNoteName (name f) = true /\ In n (parseDailyNote settings f) /\
  lineStart n <= c < lineEnd n.
Proof.
  unfold getMeetingNoteAtCursor.
  pose proof (parse_layout settings f (split_lines (contents f))) as L.
  destruct (isDailyNoteName (name f)); simpl.
  - split.
    + intro E. apply find_some in E as [Hin E].
      apply andb_true_iff in E as [E1 E2]. apply Nat.leb_le in E1. apply Nat.ltb_lt in E2.
      repeat split; auto.
    + intros (_ & Hin & Hc). exact (lay_find _ _ _ _ _ _ _ _ _ L Hin Hc).
  - split; [discriminate | intros [E _]; discriminate].
Qed.

Lemma note_at_cursor_spec_witness :
  getMeetingNoteAtCursor defaults twoNotesDay 3 =
  Some (nth 0 (parseDailyNote defaults twoNotesDay) noNote).
Proof.
  apply (proj2 (note_at_cursor_spec defaults twoNotesDay 3 _)).
  vm_compute. split; [reflexivity | split; [left; reflexivity | split; auto]].
Defined.

Module ReflectorViewFacts.
Import ReflectorView.

Lemma optStrEqb_refl (a : option string) : optStrEqb a a = true.
Proof. destruct a; simpl; [apply String.eqb_refl | reflexivity]. Qed.

Lemma optNatEqb_refl (a : option nat) : optNatEqb a a = true.
Proof. destruct a; simpl; [apply Nat.eqb_refl | reflexivity]. Qed.

Lemma optStrEqb_eq (a b : option string) : optStrEqb a b = true <-> a = b.
Proof.
  destruct a, b; simpl; split; intro H; try discriminate; try reflexivity.
  - apply String.eqb_eq in H; subst; reflexivity.
  - injection H as ->. apply String.eqb_refl.
Qed.

Lemma optNatEqb_eq (a b : option nat) : optNatEqb a b = true <-> a = b.
Proof.
  destruct a, b; simpl; split; intro H; try discriminate; try reflexivity.
  - apply Nat.eqb_eq in H; subst; reflexivity.
  - injection H as ->. apply Nat.eqb_refl.
Qed.

Lemma noteChanged_false (a b : option MeetingNote) :
  noteChanged a b = false <-> notePath a = notePath b /\ noteStart a = noteStart b.
Proof.
  unfold noteChanged. rewrite orb_false_iff, !negb_false_iff, optStrEqb_eq, optNatEqb_eq.
  tauto.
Qed.

(** A second cursor check at the same line leaves the view unchanged and
    does not render. *)
Theorem check_cursor_idempotent (settings : ReflectorSettings) (st : ViewState) (line : nat) :
  checkCursorPosition settings (fst (checkCursorPosition settings st line)) line =
  (fst (checkCursorPosition settings st line), false).
Proof.
  destruct st as [[f|] [|] cn cl]; unfold checkCursorPosition; simpl; try reflexivity.
  destruct (Z.eqb (Z.of_nat line) cl) eqn:El; simpl; [rewrite El; reflexivity|].
  destruct (noteChanged _ _); simpl; rewrite Z.eqb_refl; reflexivity.
Qed.

(** A cursor check on a new line of the tracked editor records the line;
    the current note then has the file path and start line of the note at
    the cursor; the view renders exactly when that identity changed, and
    otherwise keeps the previous note object. *)
Theorem check_cursor_new_line (settings : ReflectorSettings) (st : ViewState) (f : TFile)
    (line : nat) :
  trackedFile st = Some f -> trackedEditor st = true ->
  Z.of_nat line <> currentLine st ->
  let note := getMeetingNoteAtCursor settings f line in
  let (st', rendered) := checkCursorPosition settings st line in
  currentLine st' = Z.of_nat line /\
  notePath (currentNote st') = notePath note /\
  noteStart (currentNote st') = noteStart note /\
  (rendered = true <->
   ~ (notePath (currentNote st) = notePath note /\ noteStart (currentNote st) = noteStart note)) /\
  (rendered = false -> currentNote st' = currentNote st).
Proof.
  intros Ef Ee Hl. cbv zeta. unfold checkCursorPosition. rewrite Ef, Ee. simpl.
  apply Z.eqb_neq in Hl. rewrite Hl.
  destruct (noteChanged (getMeetingNoteAtCursor settings f line) (currentNote st)) eqn:C;
    simpl.
  - split; [reflexivity|]. split; [reflexivity|]. split; [reflexivity|].
    split; [|discriminate]. split; [intros _ [E1 E2] | intros _; reflexivity].
    assert (C' : noteChanged (getMeetingNoteAtCursor settings f line)
                   (currentNote st) = false)
      by (apply noteChanged_false; split; symmetry; assumption).
    congruence.
  - apply noteChanged_false in C as [C1 C2].
    split; [reflexivity|]. split; [symmetry; exact C1|]. split; [symmetry; exact C2|].
    split; [|intros _; reflexivity]. split; [discriminate|].
    intro N. exfalso. apply N. split; symmetry; assumption.
Qed.

(** After [refresh] on a tracked file and editor, the current note is the
    note at the cursor and the current line is the cursor line. *)
Theorem refresh_current_note (settings : ReflectorSettings) (st : ViewState) (f : TFile)
    (line : nat) :
  trackedFile st = Some f -> trackedEditor st = true ->
  currentNote (fst (refresh settings st line)) = getMeetingNoteAtCursor settings f line /\
  currentLine (fst (refresh settings st line)) = Z.of_nat line.
Proof.
  intros Ef Ee. unfold refresh, checkCursorPosition. simpl. rewrite Ef, Ee. simpl.
  assert (Hl : Z.eqb (Z.of_nat line) (-1) = false) by (apply Z.eqb_neq; lia).
  rewrite Hl.
  destruct (getMeetingNoteAtCursor settings f line) as [n|] eqn:En; simpl;
    split; reflexivity.
Qed.

(** Opening a file whose cursor is on the line number last seen keeps the
    previous current note, though it may belong to another file, and does
    not render. *)
Theorem file_open_same_line (settings : ReflectorSettings) (st : ViewState) (f : TFile)
    (line : nat) :
  Z.of_nat line = currentLine st ->
  onFileOpen settings st (Some f) true line =
  (mkView (Some f) true (currentNote st) (currentLine st), false).
Proof.
  intro Hl. unfold onFileOpen, checkCursorPosition. simpl. rewrite Hl, Z.eqb_refl.
  reflexivity.
Qed.

End ReflectorViewFacts.

Definition noNl (s : string) : Prop := ~ In nl (list_ascii_of_string s).

Lemma split_on_nonempty (sep : ascii -> bool) (l : list ascii) : split_on sep l <> [].
Proof.
  destruct l as [|c r]; simpl; [discriminate|].
  destruct (sep c); [discriminate|]. destruct (split_on sep r); discriminate.
Qed.

Lemma join_split_lines (s : string) : join_lines (split_lines s) = s.
Proof.
  unfold join_lines, split_lines, split_by.
  rewrite <- (string_of_list_ascii_of_string s) at 2.
  generalize (list_ascii_of_string s) as l. clear s.
  induction l as [|c r IH]; [reflexivity|]. simpl.
  destruct (Ascii.eqb c nl) eqn:E.
  - apply Ascii.eqb_eq in E. subst c.
    pose proof (split_on_nonempty (fun c => Ascii.eqb c nl) r) as Hne.
    destruct (split_on _ r) as [|w ws] eqn:Es; [contradiction|].
    simpl in IH |- *. rewrite IH. reflexivity.
  - pose proof (split_on_nonempty (fun c => Ascii.eqb c nl) r) as Hne.
    destruct (split_on _ r) as [|w ws] eqn:Es; [contradiction|].
    simpl in IH |- *. destruct ws as [|w' ws]; simpl in *; rewrite <- IH; reflexivity.
Qed.

Lemma split_on_nosep (l : list ascii) :
  ~ In nl l -> split_on (fun c => Ascii.eqb c nl) l = [l].
Proof.
  induction l as [|c r IH]; intro H; [reflexivity|]. simpl.
  destruct (Ascii.eqb c nl) eqn:E.
  - apply Ascii.eqb_eq in E. subst. exfalso. apply H. left; reflexivity.
  - rewrite IH; [reflexivity|]. intro Hr. apply H. right; exact Hr.
Qed.

Lemma split_on_app_nl (l rest : list ascii) :
  ~ In nl l ->
  split_on (fun c => Ascii.eqb c nl) (l ++ nl :: rest) =
  l :: split_on (fun c => Ascii.eqb c nl) rest.
Proof.
  induction l as [|c r IH]; intro H; simpl.
  - reflexivity.
  - destruct (Ascii.eqb c nl) eqn:E.
    + apply Ascii.eqb_eq in E. subst. exfalso. apply H. left; reflexivity.
    + rewrite IH; [reflexivity|]. intro Hr. apply H. right; exact Hr.
Qed.

Lemma list_ascii_concat_nl (x y : string) :
  list_ascii_of_string (String.append x (String.append nl_s y)) =
  list_ascii_of_string x ++ nl :: list_ascii_of_string y.
Proof. rewrite !list_ascii_append. reflexivity. Qed.

Lemma split_join_lines (ls : list string) :
  ls <> [] -> Forall noNl ls -> split_lines (join_lines ls) = ls.
Proof.
  unfold split_lines, split_by, join_lines.
  induction ls as [|x ls IH]; intros Hne Hall; [contradiction|].
  inversion Hall as [|? ? Hx Hr]; subst.
  destruct ls as [|y ls].
  - simpl. rewrite split_on_nosep by exact Hx. simpl.
    rewrite string_of_list_ascii_of_string. reflexivity.
  - change (String.concat nl_s (x :: y :: ls))
      with (String.append x (String.append nl_s (String.concat nl_s (y :: ls)))).
    rewrite list_ascii_concat_nl, split_on_app_nl by exact Hx. simpl map.
    rewrite string_of_list_ascii_of_string. f_equal.
    apply IH; [discriminate | exact Hr].
Qed.

Lemma split_lines_noNl (s : string) : Forall noNl (split_lines s).
Proof.
  unfold split_lines, split_by. apply Forall_map, Forall_forall.
  intros w Hw. unfold noNl. rewrite list_ascii_of_string_of_list_ascii.
  revert w Hw. generalize (list_ascii_of_string s). clear s.
  induction l as [|c r IH]; simpl; intros w Hw.
  - destruct Hw as [<-|[]]. intros [].
  - destruct (Ascii.eqb c nl) eqn:E.
    + destruct Hw as [<-|Hw]; [intros []| exact (IH w Hw)].
    + destruct (split_on _ r) as [|w0 ws] eqn:Es.
      * destruct Hw as [<-|[]]. intros [Hc|[]]. subst. rewrite Ascii.eqb_refl in E. discriminate.
      * destruct Hw as [<-|Hw].
        -- intros [Hc|Hc]; [subst; rewrite Ascii.eqb_refl in E; discriminate|].
           exact (IH w0 (or_introl eq_refl) Hc).
        -- exact (IH w (or_intror Hw)).
Qed.

Lemma split_lines_nonempty (s : string) : split_lines s <> [].
Proof.
  unfold split_lines, split_by. intro H. apply map_eq_nil in H.
  exact (split_on_nonempty _ _ H).
Qed.

Lemma noNl_append (x y : string) : noNl x -> noNl y -> noNl (String.append x y).
Proof.
  unfold noNl. intros Hx Hy. rewrite list_ascii_append, in_app_iff. tauto.
Qed.

Lemma setLine_spec (lines : list string) (k : nat) (v : string) :
  List.length (setLine lines k v) = Nat.max (List.length lines) (S k) /\
  nth k (setLine lines k v) "" = v /\
  (forall j, j <> k -> nth j (setLine lines k v) "" = nth j lines "").
Proof.
  unfold setLine. destruct (k <? List.length lines) eqn:E.
  - apply Nat.ltb_lt in E.
    assert (Lf : List.length (firstn k lines) = k) by (rewrite length_firstn; lia).
    split; [|split].
    + rewrite length_app, length_firstn. cbn [List.length]. rewrite length_skipn. lia.
    + rewrite app_nth2 by lia. rewrite Lf, Nat.sub_diag. reflexivity.
    + intros j Hj. destruct (Nat.lt_ge_cases j k) as [Hl|Hg].
      * rewrite app_nth1 by lia. rewrite nth_firstn. destruct (j <? k) eqn:F; [reflexivity|].
        apply Nat.ltb_ge in F. lia.
      * rewrite app_nth2 by lia. rewrite Lf.
        destruct (j - k) as [|m] eqn:Ejk; [lia|]. cbn [nth]. rewrite nth_skipn.
        f_equal. lia.
  - apply Nat.ltb_ge in E. split; [|split].
    + rewrite !length_app, repeat_length. simpl. lia.
    + rewrite app_nth2 by lia. rewrite app_nth2 by (rewrite repeat_length; lia).
      rewrite repeat_length. replace (k - List.length lines - (k - List.length lines)) with 0
        by lia. reflexivity.
    + intros j Hj. destruct (Nat.lt_ge_cases j (List.length lines)) as [Hl|Hg].
      * rewrite app_nth1 by lia. reflexivity.
      * rewrite (nth_overflow lines) by lia. rewrite app_nth2 by lia.
        destruct (Nat.lt_ge_cases (j - List.length lines) (k - List.length lines)) as [H1|H1].
        -- rewrite app_nth1 by (rewrite repeat_length; lia). apply nth_repeat.
        -- rewrite app_nth2 by (rewrite repeat_length; lia). rewrite repeat_length.
           destruct (j - List.length lines - (k - List.length lines)) as [|m] eqn:Em; [lia|].
           simpl. destruct m; reflexivity.
Qed.

Lemma noNl_nth (ls : list string) (i : nat) : Forall noNl ls -> noNl (nth i ls "").
Proof.
  intro H. destruct (Nat.lt_ge_cases i (List.length ls)) as [Hl|Hg].
  - rewrite Forall_forall in H. apply H, nth_In, Hl.
  - rewrite nth_overflow by exact Hg. intros [].
Qed.

Lemma setLine_noNl (lines : list string) (k : nat) (v : string) :
  Forall noNl lines -> noNl v -> Forall noNl (setLine lines k v).
Proof.
  intros Hl Hv. unfold setLine. destruct (k <? List.length lines).
  - rewrite Forall_forall in Hl |- *. intros x Hx. apply in_app_or in Hx as [Hx|[<-|Hx]].
    + apply Hl, (In_firstn_in k), Hx.
    + exact Hv.
    + apply Hl. rewrite <- (firstn_skipn (S k) lines). apply in_or_app. right; exact Hx.
  - apply Forall_app. split; [exact Hl|]. apply Forall_app. split.
    + apply Forall_forall. intros x Hx. apply repeat_spec in Hx. subst. intros [].
    + constructor; [exact Hv | constructor].
Qed.

(** The edit of [addTagToCurrentNote] (for a tag without newline) changes
    only the line below the heading: that line becomes the tag, or the old
    line, a space and the tag when it had text; every other line is
    unchanged, and the document grows with empty lines when it is shorter. *)
Theorem add_tag_edit (content : string) (lineStart : nat) (tag : string) :
  noNl tag ->
  let lines := split_lines content in
  let lines' := split_lines (addTagContent content lineStart tag) in
  List.length lines' = Nat.max (List.length lines) (S (S lineStart)) /\
  nth (S lineStart) lines' "" =
    (if String.eqb (trim (nth (S lineStart) lines "")) "" then tag
     else String.append (nth (S lineStart) lines "") (String.append " " tag)) /\
  (forall j, j <> S lineStart -> nth j lines' "" = nth j lines "").
Proof.
  intro Ht. cbv zeta. unfold addTagContent. cbv zeta.
  set (k := S lineStart). set (lines := split_lines content).
  set (v := if String.eqb (trim (nth k lines "")) "" then tag
            else String.append (nth k lines "") (String.append " " tag)).
  assert (Hv : noNl v).
  { unfold v. destruct (String.eqb _ _); [exact Ht|].
    apply noNl_append; [apply noNl_nth, split_lines_noNl|].
    apply noNl_append; [|exact Ht]. intros [E|[]]. discriminate. }
  rewrite split_join_lines.
  - apply setLine_spec.
  - intro E. pose proof (proj1 (setLine_spec lines k v)) as L. rewrite E in L. simpl in L. lia.
  - apply setLine_noNl; [apply split_lines_noNl | exact Hv].
Qed.

Lemma add_tag_edit_witness :
  nth 1 (split_lines (addTagContent (join_lines ["### A"; "body"]) 0 "#x")) "" =
  (if String.eqb (trim (nth 1 (split_lines (join_lines ["### A"; "body"])) "")) "" then "#x"
   else String.append (nth 1 (split_lines (join_lines ["### A"; "body"])) "")
                      (String.append " " "#x")).
Proof.
  pose proof (add_tag_edit (join_lines ["### A"; "body"]) 0 "#x") as H.
  assert (Ht : noNl "#x") by (vm_compute; intros [E|[E|[]]]; discriminate).
  specialize (H Ht). cbv zeta in H. destruct H as (_ & H & _).
  exact H.
Defined.

Lemma split_runs_pieces (sep : ascii -> bool) (l : list ascii) :
  forall w, In w (split_runs sep l) -> forall c, In c w -> sep c = false.
Proof.
  induction l as [|c r IH]; simpl; intros w Hw x Hx.
  - destruct Hw as [<-|[]]. destruct Hx.
  - destruct (sep c) eqn:E.
    + destruct r as [|c' r'].
      * destruct Hw as [<-|Hw]; [destruct Hx | exact (IH w Hw x Hx)].
      * destruct (sep c') eqn:E'.
        -- exact (IH w Hw x Hx).
        -- destruct Hw as [<-|Hw]; [destruct Hx | exact (IH w Hw x Hx)].
    + unfold cons_head in Hw. destruct (split_runs sep r) as [|w0 ws] eqn:Es.
      * destruct Hw as [<-|[]]. destruct Hx as [<-|[]]. exact E.
      * destruct Hw as [<-|Hw].
        -- destruct Hx as [<-|Hx]; [exact E | exact (IH w0 (or_introl eq_refl) x Hx)].
        -- exact (IH w (or_intror Hw) x Hx).
Qed.

(** Every token of [tokenize] has at least three characters, all of them
    lowercase ASCII letters or digits. *)
Theorem tokenize_tokens (text : string) :
  forall tok, In tok (tokenize text) ->
    3 <= String.length tok /\ forallb is_lower_alnum (list_ascii_of_string tok) = true.
Proof.
  intros tok Ht. unfold tokenize in Ht. apply filter_In in Ht as [Ht Hl].
  apply Nat.ltb_lt in Hl. split; [lia|].
  apply in_map_iff in Ht as [w [<- Hw]]. rewrite list_ascii_of_string_of_list_ascii.
  apply forallb_forall. intros c Hc.
  pose proof (split_runs_pieces _ _ w Hw c Hc) as E. simpl in E.
  apply negb_false_iff in E. exact E.
Qed.

Lemma tokenize_tokens_witness :
  3 <= String.length "standup" /\ forallb is_lower_alnum (list_ascii_of_string "standup") = true.
Proof.
  apply (tokenize_tokens "Project Alpha-standup: a ok"). vm_compute. right; right; left; reflexivity.
Defined.

Lemma suggestTags_reason (v : Vault) (note : MeetingNote) (s : TagSuggestion) :
  In s (suggestTags v note) ->
  reason s = getMatchReason (tag s) (tokenize (heading note) ++ tokenize (content note)) /\
  0 < calculateTagScore (tag s) (tokenize (heading note)) (tokenize (content note)).
Proof.
  unfold suggestTags. cbv zeta. intro Hs.
  apply In_firstn_in in Hs.
  apply (Permutation_in _ (sort_by_perm _ scoreCmp _)) in Hs.
  rewrite suggest_fold in Hs. simpl in Hs.
  apply in_map_iff in Hs as [t [<- Ht]]. apply filter_In in Ht as [Ht Hp].
  apply andb_true_iff in Hp as [_ Hsc]. apply Nat.ltb_lt in Hsc. simpl. auto.
Qed.

Lemma parts_ge (e q : nat) (w : string) (ps : list string) (a : nat) :
  a <= fold_left (fun score p =>
                    if String.eqb p w then score + e
                    else if includes p w || includes w p then score + q
                    else score) ps a.
Proof.
  revert a; induction ps as [|p ps IH]; intro a; simpl; [lia|].
  destruct (String.eqb p w); [|destruct (includes p w || includes w p)];
    (etransitivity; [|apply IH]); lia.
Qed.

Lemma parts_pos (e q : nat) (w : string) (ps : list string) (a : nat) :
  a < fold_left (fun score p =>
                   if String.eqb p w then score + e
                   else if includes p w || includes w p then score + q
                   else score) ps a ->
  exists p, In p ps /\ (String.eqb p w || includes p w || includes w p) = true.
Proof.
  revert a; induction ps as [|p ps IH]; intros a H; simpl in H; [lia|].
  destruct (String.eqb p w) eqn:E1.
  - exists p. split; [left; reflexivity|]. rewrite E1. reflexivity.
  - destruct (includes p w || includes w p) eqn:E2.
    + exists p. split; [left; reflexivity|]. rewrite E1. simpl. exact E2.
    + destruct (IH a H) as [p' [Hp' Hm]]. exists p'. split; [right; exact Hp' | exact Hm].
Qed.

Lemma tokenScore_ge (W E P : nat) (tn : string) (tp : list string) (a : nat) (t : string) :
  a <= tokenScore W E P tn tp a t.
Proof.
  unfold tokenScore. etransitivity; [|apply parts_ge].
  destruct (includes tn t || includes t tn); lia.
Qed.

Lemma tokenScore_pos (W E P : nat) (tn : string) (tp : list string) (a : nat) (t : string) :
  a < tokenScore W E P tn tp a t -> matchesToken tn tp t = true.
Proof.
  unfold tokenScore, matchesToken. destruct (includes tn t || includes t tn); [reflexivity|].
  intro H. apply parts_pos in H as [p [Hp Hm]]. apply existsb_exists. exists p. auto.
Qed.

Lemma tokens_pos (W E P : nat) (tn : string) (tp : list string) (ts : list string) (a : nat) :
  a < fold_left (tokenScore W E P tn tp) ts a ->
  exists t, In t ts /\ matchesToken tn tp t = true.
Proof.
  revert a; induction ts as [|t ts IH]; intros a H; simpl in H; [lia|].
  destruct (Nat.lt_ge_cases a (tokenScore W E P tn tp a t)) as [L|L].
  - exists t. split; [left; reflexivity | exact (tokenScore_pos _ _ _ _ _ _ _ L)].
  - pose proof (tokenScore_ge W E P tn tp a t).
    replace (tokenScore W E P tn tp a t) with a in H by lia.
    destruct (IH a H) as [t' [Ht' Hm]]. exists t'. split; [right; exact Ht' | exact Hm].
Qed.

Lemma score_pos_match (t : string) (H B : list string) :
  0 < calculateTagScore t H B ->
  exists w, In w (H ++ B) /\ matchesToken (tagNameOf t) (tagPartsOf (tagNameOf t)) w = true.
Proof.
  unfold calculateTagScore. cbv zeta. intro P.
  rewrite tokens_shift in P.
  destruct (Nat.eq_dec (fold_left (tokenScore 10 15 5 (tagNameOf t) (tagPartsOf (tagNameOf t))) H 0) 0)
    as [Z|Z].
  - rewrite Z in P. simpl in P. apply tokens_pos in P as [w [Hw Hm]].
    exists w. split; [apply in_or_app; right; exact Hw | exact Hm].
  - assert (P' : 0 < fold_left (tokenScore 10 15 5 (tagNameOf t) (tagPartsOf (tagNameOf t))) H 0)
      by lia.
    apply tokens_pos in P' as [w [Hw Hm]].
    exists w. split; [apply in_or_app; left; exact Hw | exact Hm].
Qed.

Lemma set_fold_nodup (l acc : list string) :
  NoDup acc ->
  NoDup (fold_left (fun acc x => if existsb (String.eqb x) acc then acc else acc ++ [x]) l acc).
Proof.
  revert acc; induction l as [|x l IH]; intros acc Hn; simpl; [exact Hn|].
  apply IH. destruct (existsb (String.eqb x) acc) eqn:E; [exact Hn|].
  apply NoDup_app; [exact Hn | constructor; [intros []|constructor] |].
  intros y Hy [Ey|[]]. subst y. assert (existsb (String.eqb x) acc = true)
    by (apply existsb_exists; exists x; split; [exact Hy | apply String.eqb_refl]).
  congruence.
Qed.

Lemma set_of_list_nodup (l : list string) : NoDup (set_of_list l).
Proof. apply set_fold_nodup. constructor. Qed.

(** The reason of every suggestion is [Matches: ] followed by one to three
    distinct tokens of the note, joined by commas, each matched by the
    suggested tag. *)
Theorem suggest_reason (v : Vault) (note : MeetingNote) :
  forall s, In s (suggestTags v note) ->
  exists u, reason s = String.append "Matches: " (String.concat ", " u) /\
    1 <= List.length u <= 3 /\ NoDup u /\
    forall w, In w u ->
      In w (tokenize (heading note) ++ tokenize (content note)) /\
      matchesToken (tagNameOf (tag s)) (tagPartsOf (tagNameOf (tag s))) w = true.
Proof.
  intros s Hs. apply suggestTags_reason in Hs as [R P].
  apply score_pos_match in P as [w0 [Hw0 Hm0]].
  rewrite R. unfold getMatchReason. cbv zeta.
  set (toks := tokenize (heading note) ++ tokenize (content note)) in *.
  set (tn := tagNameOf (tag s)) in *.
  assert (Hin0 : In w0 (set_of_list (filter (matchesToken tn (tagPartsOf tn)) toks)))
    by (apply set_of_list_In, filter_In; auto).
  destruct (set_of_list (filter (matchesToken tn (tagPartsOf tn)) toks)) as [|x xs] eqn:Es;
    [destruct Hin0|].
  exists (firstn 3 (x :: xs)). split; [reflexivity|]. split; [|split].
  - change (firstn 3 (x :: xs)) with (x :: firstn 2 xs).
    pose proof (firstn_le_length 2 xs). cbn [List.length]. lia.
  - apply NoDup_firstn_of. rewrite <- Es. apply set_of_list_nodup.
  - intros w Hw. apply In_firstn_in in Hw. rewrite <- Es in Hw.
    apply set_of_list_In, filter_In in Hw. exact Hw.
Qed.

Lemma strongly_sorted_app {A} (R : A -> A -> Prop) (l1 l2 : list A) :
  StronglySorted R (l1 ++ l2) -> forall x y, In x l1 -> In y l2 -> R x y.
Proof.
  induction l1 as [|a l1 IH]; simpl; intros H x y Hx Hy; [destruct Hx|].
  apply StronglySorted_inv in H as [H1 H2]. destruct Hx as [<-|Hx].
  - rewrite Forall_forall in H2. apply H2, in_or_app. right; exact Hy.
  - exact (IH H1 x y Hx Hy).
Qed.

(** [suggestTags] keeps the best candidates: a vault tag absent from the
    note with a positive score is left out only when ten suggestions are
    returned, each scoring at least as much. *)
Theorem suggest_top10 (v : Vault) (note : MeetingNote) (t : string) :
  In t (getAllTagNames v) ->
  ~ In (toLowerCase t) (map toLowerCase (tags note)) ->
  0 < calculateTagScore t (tokenize (heading note)) (tokenize (content note)) ->
  ~ In t (map tag (suggestTags v note)) ->
  List.length (suggestTags v note) = 10 /\
  forall s, In s (suggestTags v note) ->
    calculateTagScore t (tokenize (heading note)) (tokenize (content note)) <= score s.
Proof.
  intros Hp Hx Hs Hout. unfold suggestTags in *. cbv zeta in *.
  rewrite suggest_fold in *. simpl app in *.
  set (H := tokenize (heading note)) in *. set (B := tokenize (content note)) in *.
  set (E := set_of_list (map toLowerCase (tags note))) in *.
  set (mk := fun t => mkSuggestion t (calculateTagScore t H B) (getMatchReason t (H ++ B))) in *.
  set (S := map mk (filter (fun t => negb (setHas E (toLowerCase t)) &&
                                     (0 <? calculateTagScore t H B)) (getAllTagNames v))) in *.
  set (L := sort_by scoreCmp S) in *.
  assert (HinS : In (mk t) S).
  { apply in_map, filter_In. split; [exact Hp|].
    apply andb_true_iff. split; [|apply Nat.ltb_lt, Hs].
    apply negb_true_iff. destruct (setHas E (toLowerCase t)) eqn:F; [|reflexivity].
    exfalso. apply Hx. apply setHas_In in F. unfold E in F. rewrite !set_of_list_In in F. exact F. }
  assert (HinL : In (mk t) L) by (apply (Permutation_in _ (Permutation_sym (sort_by_perm _ scoreCmp S))), HinS).
  assert (HnF : ~ In (mk t) (firstn 10 L)).
  { intro F. apply Hout. apply in_map_iff. exists (mk t). split; [reflexivity | exact F]. }
  assert (HinK : In (mk t) (skipn 10 L)).
  { rewrite <- (firstn_skipn 10 L) in HinL. apply in_app_or in HinL as [F|K];
      [contradiction | exact K]. }
  assert (Hsort : StronglySorted (fun a b => score b <= score a) L).
  { apply Sorted_StronglySorted; [intros a b c; lia|].
    apply (sorted_weaken (cmp_le _ scoreCmp)).
    + unfold cmp_le, scoreCmp. intros a b Hab. lia.
    + apply sort_by_sorted. apply scoreCmp_antisym. }
  rewrite <- (firstn_skipn 10 L) in Hsort.
  split.
  - apply firstn_length_le.
    assert (K : 0 < List.length (skipn 10 L)) by (destruct (skipn 10 L); [destruct HinK | simpl; lia]).
    rewrite length_skipn in K. lia.
  - intros s Hs'. change (calculateTagScore t H B) with (score (mk t)).
    exact (strongly_sorted_app _ _ _ Hsort s (mk t) Hs' HinK).
Qed.

(** All tag occurrences of the metadata cache, file after file. *)
Definition allCachedTags (v : Vault) : list string :=
  flat_map (fun f => match cache_tags f with Some ts => ts | None => [] end)
           (markdownFiles v).

Definition countOpt (n : nat) : option nat := if n =? 0 then None else Some n.

Lemma countTag_get (k t : string) (m : list (string * nat)) (c : nat) :
  tagCountGet t m = countOpt c ->
  tagCountGet t (countTag k m) = countOpt (c + if String.eqb k t then 1 else 0).
Proof.
  revert c; induction m as [|[k' c'] r IH]; intros c H; simpl in *.
  - unfold countOpt in H. destruct (c =? 0) eqn:Ec; [|discriminate].
    apply Nat.eqb_eq in Ec. subst c.
    destruct (String.eqb t k) eqn:E1; destruct (String.eqb k t) eqn:E2;
      try (apply String.eqb_eq in E1; subst; rewrite String.eqb_refl in E2; discriminate);
      try (apply String.eqb_eq in E2; subst; rewrite String.eqb_refl in E1; discriminate);
      reflexivity.
  - destruct (String.eqb t k') eqn:E1.
    + apply String.eqb_eq in E1. subst k'. unfold countOpt in H.
      destruct (c =? 0) eqn:Ec; [discriminate|]. injection H as Hc. subst c'.
      apply Nat.eqb_neq in Ec.
      destruct (String.eqb k t) eqn:E2; simpl; rewrite String.eqb_refl; unfold countOpt.
      * replace (c + 1 =? 0) with false by (symmetry; apply Nat.eqb_neq; lia).
        rewrite Nat.add_1_r. reflexivity.
      * rewrite Nat.add_0_r. replace (c =? 0) with false by (symmetry; apply Nat.eqb_neq; lia).
        reflexivity.
    + destruct (String.eqb k k') eqn:E2; simpl; rewrite E1.
      * apply String.eqb_eq in E2. subst k'.
        replace (String.eqb k t) with false
          by (symmetry; apply String.eqb_neq; intro; subst; rewrite String.eqb_refl in E1;
              discriminate).
        rewrite Nat.add_0_r. exact H.
      * apply IH, H.
Qed.

(** [getAllVaultTags] maps each tag to the number of its occurrences in the
    metadata cache of the vault's files, and has no entry for a tag that
    never occurs. *)
Theorem vault_tag_counts (v : Vault) (t : string) :
  tagCountGet t (getAllVaultTags v) = countOpt (count_occ string_dec (allCachedTags v) t).
Proof.
  unfold getAllVaultTags, allCachedTags.
  assert (G : forall fs m c, tagCountGet t m = countOpt c ->
    tagCountGet t (fold_left (fun m f =>
               match cache_tags f with
               | Some ts => fold_left (fun m t => countTag t m) ts m
               | None => m
               end) fs m) =
    countOpt (c + count_occ string_dec
                    (flat_map (fun f => match cache_tags f with Some ts => ts | None => [] end) fs)
                    t)).
  { induction fs as [|f fs IH]; intros m c Hm; simpl; [rewrite Nat.add_0_r; exact Hm|].
    rewrite count_occ_app, Nat.add_assoc. apply IH.
    destruct (cache_tags f) as [ts|].
    - clear IH. revert m c Hm. induction ts as [|u ts IHt]; intros m c Hm; simpl;
        [rewrite Nat.add_0_r; exact Hm|].
      replace (c + (if string_dec u t then S (count_occ string_dec ts t)
                    else count_occ string_dec ts t))
        with ((c + if String.eqb u t then 1 else 0) + count_occ string_dec ts t).
      + apply IHt, countTag_get, Hm.
      + destruct (string_dec u t) as [->|N]; [rewrite String.eqb_refl; lia|].
        apply String.eqb_neq in N. rewrite N. lia.
    - rewrite Nat.add_0_r. exact Hm. }
  apply (G _ [] 0 eq_refl).
Qed.

Lemma strongly_sorted_snoc {A} (R : A -> A -> Prop) (l : list A) (x : A) :
  StronglySorted R l -> (forall y, In y l -> R y x) -> StronglySorted R (l ++ [x]).
Proof.
  induction l as [|a l IH]; simpl; intros H Hx.
  - constructor; constructor.
  - apply StronglySorted_inv in H as [H1 H2]. constructor.
    + apply IH; [exact H1 | intros y Hy; apply Hx; right; exact Hy].
    + apply Forall_app. split; [exact H2|]. constructor; [apply Hx; left; reflexivity | constructor].
Qed.

Definition todoOk (f : TFile) (lines : list string) (t : TodoItem) : Prop :=
  todoFile t = f /\ todoLine t < List.length lines /\
  (exists g, todoMatch (nth (todoLine t) lines "") = Some g /\ g <> "" /\ todoText t = trim g) /\
  todoHeading t <> Some "".

Lemma Forall_line_lt (ts : list TodoItem) (a b : nat) :
  a <= b -> Forall (fun t => todoLine t < a) ts -> Forall (fun t => todoLine t < b) ts.
Proof.
  intros Hab H. rewrite Forall_forall in *. intros t Ht. specialize (H t Ht). lia.
Qed.

Lemma getTodos_facts (f : TFile) (lines : list string) :
  let todos := snd (fold_left (getTodosStep f) (enumerate 0 lines) (None, [])) in
  Forall (todoOk f lines) todos /\ StronglySorted lt (map todoLine todos).
Proof.
  cbv zeta.
  assert (G : forall pre ls ch todos,
    pre ++ ls = lines -> ch <> Some "" ->
    Forall (todoOk f lines) todos -> Forall (fun t => todoLine t < List.length pre) todos ->
    StronglySorted lt (map todoLine todos) ->
    let r := snd (fold_left (getTodosStep f) (enumerate (List.length pre) ls) (ch, todos)) in
    Forall (todoOk f lines) r /\ StronglySorted lt (map todoLine r)).
  { intros pre ls. revert pre. induction ls as [|l ls IH]; intros pre ch todos Hpl Hch Hok Hlt Hs;
      cbv zeta; simpl; [split; assumption|].
    assert (Hnth : nth (List.length pre) lines "" = l)
      by (rewrite <- Hpl, app_nth2, Nat.sub_diag by lia; reflexivity).
    assert (Hlen : List.length pre < List.length lines)
      by (rewrite <- Hpl, length_app; simpl; lia).
    replace (S (List.length pre)) with (List.length (pre ++ [l]))
      by (rewrite length_app; simpl; lia).
    set (ch' := if startsWith (trim l) "#" then
                  match headingMatch (trim l) with
                  | Some g => if truthy g then Some g else ch
                  | None => ch
                  end else ch).
    assert (Hch' : ch' <> Some "").
    { unfold ch'. destruct (startsWith _ _); [|exact Hch].
      destruct (headingMatch _); [|exact Hch]. destruct (truthy s) eqn:T; [|exact Hch].
      intro E. injection E as ->. discriminate. }
    unfold getTodosStep at 2. fold ch'.
    destruct (todoMatch l) as [g|] eqn:Em; [destruct (truthy g) eqn:Tg|].
    - apply IH; [rewrite <- app_assoc; exact Hpl | exact Hch' | | |].
      + apply Forall_app. split; [exact Hok|]. constructor; [|constructor].
        unfold todoOk; simpl. split; [reflexivity|]. split; [exact Hlen|]. split; [|exact Hch'].
        exists g. rewrite Hnth. split; [exact Em|]. split; [|reflexivity].
        unfold truthy in Tg. apply negb_true_iff, String.eqb_neq in Tg. exact Tg.
      + apply Forall_app. split.
        * apply (Forall_line_lt _ (List.length pre)); [rewrite length_app; simpl; lia | exact Hlt].
        * constructor; [simpl; rewrite length_app; simpl; lia | constructor].
      + rewrite map_app. apply strongly_sorted_snoc; [exact Hs|].
        intros y Hy. apply in_map_iff in Hy as [t [<- Ht]].
        rewrite Forall_forall in Hlt. simpl. apply Hlt, Ht.
    - apply IH; [rewrite <- app_assoc; exact Hpl | exact Hch' | exact Hok | | exact Hs].
      apply (Forall_line_lt _ (List.length pre)); [rewrite length_app; simpl; lia | exact Hlt].
    - apply IH; [rewrite <- app_assoc; exact Hpl | exact Hch' | exact Hok | | exact Hs].
      apply (Forall_line_lt _ (List.length pre)); [rewrite length_app; simpl; lia | exact Hlt]. }
  apply (G [] lines None []); [reflexivity | discriminate | constructor | constructor | constructor].
Qed.

Lemma dotPlusEnd_some (l g : list ascii) :
  dotPlusEnd l = Some g -> g = l /\ l <> [] /\ forallb (fun c => negb (is_line_term c)) l = true.
Proof.
  unfold dotPlusEnd. destruct l as [|c r]; [discriminate|].
  destruct (forallb _ (c :: r)) eqn:E; [|discriminate].
  intros H. injection H as <-. split; [reflexivity|]. split; [discriminate | exact E || reflexivity].
Qed.

Lemma wsThenRest_some (l : list ascii) : forall (min : nat) (g : list ascii),
  wsThenRest min l = Some g ->
  exists p, l = p ++ g /\ g <> [] /\ forallb (fun c => negb (is_line_term c)) g = true.
Proof.
  induction l as [|c r IH]; intros min g H; [discriminate|].
  cbn [wsThenRest] in H. destruct (is_ws c).
  - destruct (wsThenRest (pred min) r) as [g'|] eqn:E.
    + injection H as <-. destruct (IH _ _ E) as [p [Hp Hg]].
      exists (c :: p). rewrite Hp. split; [reflexivity | exact Hg].
    + destruct (min =? 0); [|discriminate].
      apply dotPlusEnd_some in H as [-> Hg]. exists []. split; [reflexivity | exact Hg].
  - destruct (min =? 0); [|discriminate].
    apply dotPlusEnd_some in H as [-> Hg]. exists []. split; [reflexivity | exact Hg].
Qed.

Lemma drop_ws_suffix (l : list ascii) : exists p, l = p ++ drop_ws l.
Proof.
  induction l as [|c r [p Hp]]; [exists []; reflexivity|].
  cbn [drop_ws]. destruct (is_ws c); [exists (c :: p); simpl; rewrite <- Hp; reflexivity | exists []; reflexivity].
Qed.

Lemma todoMatch_tail (line g : string) :
  todoMatch line = Some g ->
  exists p, list_ascii_of_string line = p ++ list_ascii_of_string g /\
    list_ascii_of_string g <> [] /\
    forallb (fun c => negb (is_line_term c)) (list_ascii_of_string g) = true.
Proof.
  unfold todoMatch. destruct (drop_ws_suffix (list_ascii_of_string line)) as [p1 H1].
  destruct (drop_ws (list_ascii_of_string line)) as [|c1 r1]; [discriminate|].
  destruct (Ascii.eqb_spec c1 "-"%char) as [->|Hc1];
    [| destruct c1 as [[] [] [] [] [] [] [] []]; try discriminate; congruence].
  destruct (drop_ws_suffix r1) as [p2 H2].
  destruct (drop_ws r1) as [|c2 r2]; [discriminate|].
  destruct (Ascii.eqb_spec c2 "["%char) as [->|Hc2];
    [| destruct c2 as [[] [] [] [] [] [] [] []]; try discriminate; congruence].
  destruct (drop_ws_suffix r2) as [p3 H3].
  destruct (drop_ws r2) as [|c3 r3]; [discriminate|].
  destruct (Ascii.eqb_spec c3 "]"%char) as [->|Hc3];
    [| destruct c3 as [[] [] [] [] [] [] [] []]; try discriminate; congruence].
  destruct (wsThenRest 0 r3) as [g'|] eqn:E; [|discriminate].
  simpl. intros H. injection H as <-. rewrite list_ascii_of_string_of_list_ascii.
  destruct (wsThenRest_some _ _ _ E) as [p4 [H4 Hg]].
  exists (p1 ++ "-"%char :: p2 ++ "["%char :: p3 ++ "]"%char :: p4). split; [|exact Hg].
  rewrite H1, H2, H3, H4. repeat (rewrite <- !app_assoc; simpl). reflexivity.
Qed.

Lemma todoMatch_checked (line : string) (pre s1 s2 rest : list ascii) (c : ascii) :
  list_ascii_of_string line = pre ++ "-"%char :: s1 ++ "["%char :: s2 ++ c :: rest ->
  forallb is_ws pre = true -> forallb is_ws s1 = true -> forallb is_ws s2 = true ->
  is_ws c = false -> c <> "]"%char -> todoMatch line = None.
Proof.
  intros E Hp H1 H2 Hc Hne. unfold todoMatch. rewrite E, (drop_ws_all_ws _ _ Hp).
  cbn [drop_ws]. change (is_ws "-"%char) with false. cbv iota.
  rewrite (drop_ws_all_ws _ _ H1). cbn [drop_ws]. change (is_ws "["%char) with false. cbv iota.
  rewrite (drop_ws_all_ws _ _ H2). cbn [drop_ws]. rewrite Hc.
  destruct c as [[] [] [] [] [] [] [] []]; try reflexivity. congruence.
Qed.

Lemma todo_line_match (f : TFile) (n : nat) :
  In n (map todoLine (getTodosFromFile f)) ->
  exists g, todoMatch (nth n (split_lines (contents f)) "") = Some g.
Proof.
  intros H. apply in_map_iff in H as [t [<- Ht]].
  destruct (getTodos_facts f (split_lines (contents f))) as [Hok _].
  rewrite Forall_forall in Hok. destruct (Hok t Ht) as [_ [_ [[g [Hg _]] _]]].
  exists g. exact Hg.
Qed.

(** Each todo of [getTodosFromFile] belongs to the file, points to a line of
    it that matches the todo pattern with a nonempty capture, has that
    capture trimmed as text and a nonempty heading if any; the todos come
    in strictly increasing line order. *)
Theorem todos_from_file_shape (f : TFile) :
  let lines := split_lines (contents f) in
  (forall t, In t (getTodosFromFile f) ->
     todoFile t = f /\ todoLine t < List.length lines /\
     (exists g, todoMatch (nth (todoLine t) lines "") = Some g /\ g <> "" /\ todoText t = trim g) /\
     todoHeading t <> Some "") /\
  StronglySorted lt (map todoLine (getTodosFromFile f)).
Proof.
  cbv zeta. destruct (getTodos_facts f (split_lines (contents f))) as [Hok Hs].
  split; [|exact Hs]. rewrite Forall_forall in Hok. exact Hok.
Qed.

(** A line ending in a carriage return (a CRLF file) never yields a todo. *)
Theorem todo_not_from_cr_line (f : TFile) (n : nat) (s : string) :
  nth n (split_lines (contents f)) "" = String.append s (String CR "") ->
  ~ In n (map todoLine (getTodosFromFile f)).
Proof.
  intros Hn Hin. destruct (todo_line_match f n Hin) as [g Hg]. rewrite Hn in Hg.
  destruct (todoMatch_tail _ _ Hg) as [p [Hp [Hne Hall]]].
  rewrite list_ascii_append in Hp. simpl in Hp.
  destruct (exists_last Hne) as [g0 [c Hc]]. rewrite Hc, app_assoc in Hp.
  apply app_inj_tail in Hp as [_ <-].
  rewrite Hc, forallb_app in Hall. simpl in Hall. rewrite andb_false_r in Hall. discriminate.
Qed.

Lemma todo_not_from_cr_line_witness :
  nth 0 (split_lines (contents crlfDay)) "" = String.append "- [ ] call back" (String CR "") /\
  ~ In 0 (map todoLine (getTodosFromFile crlfDay)).
Proof.
  assert (H : nth 0 (split_lines (contents crlfDay)) "" = String.append "- [ ] call back" (String CR ""))
    by reflexivity.
  split; [exact H | exact (todo_not_from_cr_line crlfDay 0 _ H)].
Defined.

(** A line with a checkbox that holds a non-space character, such as
    [- [x] done], never yields a todo. *)
Theorem todo_not_from_checked_box (f : TFile) (n : nat) (pre s1 s2 rest : list ascii) (c : ascii) :
  list_ascii_of_string (nth n (split_lines (contents f)) "") =
    pre ++ "-"%char :: s1 ++ "["%char :: s2 ++ c :: rest ->
  forallb is_ws pre = true -> forallb is_ws s1 = true -> forallb is_ws s2 = true ->
  is_ws c = false -> c <> "]"%char ->
  ~ In n (map todoLine (getTodosFromFile f)).
Proof.
  intros E Hp H1 H2 Hc Hne Hin. destruct (todo_line_match f n Hin) as [g Hg].
  rewrite (todoMatch_checked _ _ _ _ _ _ E Hp H1 H2 Hc Hne) in Hg. discriminate.
Qed.

Lemma todo_not_from_checked_box_witness :
  ~ In 1 (map todoLine (getTodosFromFile crlfDay)).
Proof.
  apply (todo_not_from_checked_box crlfDay 1 [] [" "%char] [] ["]"%char; " "%char; "d"%char; "o"%char; "n"%char; "e"%char] "x"%char);
    [reflexivity | reflexivity | reflexivity | reflexivity | reflexivity | discriminate].
Defined.

Lemma take_run_app (p : ascii -> bool) (a r : list ascii) (c : ascii) :
  forallb p a = true -> p c = false -> take_run p (a ++ c :: r) = (a, c :: r).
Proof.
  induction a as [|x a IH]; simpl; intros Ha Hc.
  - rewrite Hc. reflexivity.
  - apply andb_true_iff in Ha as [Hx Ha]. rewrite Hx, (IH Ha Hc). reflexivity.
Qed.

Lemma linkAt_not_bracket (c : ascii) (r : list ascii) : c <> "["%char -> linkAt (c :: r) = None.
Proof.
  intros H. destruct c as [[] [] [] [] [] [] [] []]; try reflexivity. congruence.
Qed.

Lemma linkScan_skip (pre L : list ascii) (k : nat) :
  (forall c, In c pre -> c <> "["%char) ->
  linkScan (List.length pre + k) (pre ++ L) = linkScan k L.
Proof.
  induction pre as [|c pre IH]; intros H; [reflexivity|].
  change (List.length (c :: pre) + k) with (S (List.length pre + k)). cbn [linkScan app].
  rewrite linkAt_not_bracket by (apply H; left; reflexivity).
  apply IH. intros x Hx. apply H. right. exact Hx.
Qed.

(** The two forms of a wiki link with target [b]: [[b]] and [[b|a]]. *)
Definition wikiLink (b : list ascii) (alias : option (list ascii)) : list ascii :=
  "["%char :: "["%char :: b ++
  match alias with
  | None => ["]"%char; "]"%char]
  | Some a => "|"%char :: a ++ ["]"%char; "]"%char]
  end.

Definition linkTargetOk (b : list ascii) (alias : option (list ascii)) : Prop :=
  b <> [] /\ (forall c, In c b -> c <> "]"%char /\ c <> "|"%char) /\
  match alias with
  | None => True
  | Some a => a <> [] /\ forall c, In c a -> c <> "]"%char
  end.

Lemma linkAt_wikiLink (b : list ascii) (alias : option (list ascii)) (post : list ascii) :
  linkTargetOk b alias -> linkAt (wikiLink b alias ++ post) = Some (b, post).
Proof.
  intros [Hb [Hbc Ha]].
  assert (Fb : forallb (fun c => negb (Ascii.eqb c "]"%char || Ascii.eqb c "|"%char)) b = true).
  { apply forallb_forall. intros c Hc. destruct (Hbc c Hc) as [H1 H2].
    apply Ascii.eqb_neq in H1. apply Ascii.eqb_neq in H2. rewrite H1, H2. reflexivity. }
  unfold wikiLink. simpl app. rewrite <- app_assoc.
  destruct alias as [a|]; simpl app.
  - unfold linkAt. rewrite (take_run_app _ _ _ "|"%char Fb eq_refl).
    destruct Ha as [Ha Hac].
    assert (Fa : forallb (fun c => negb (Ascii.eqb c "]"%char)) a = true).
    { apply forallb_forall. intros c Hc. specialize (Hac c Hc). apply Ascii.eqb_neq in Hac.
      rewrite Hac. reflexivity. }
    rewrite <- app_assoc. simpl app. rewrite (take_run_app _ _ _ "]"%char Fa eq_refl).
    destruct b as [|x b]; [congruence|]. destruct a as [|y a]; [congruence|]. reflexivity.
  - unfold linkAt. rewrite (take_run_app _ _ _ "]"%char Fb eq_refl).
    destruct b as [|x b]; [congruence|]. reflexivity.
Qed.

Lemma linkScan_wikiLink (b : list ascii) (alias : option (list ascii)) (post : list ascii) (k : nat) :
  linkTargetOk b alias ->
  linkScan (S k) (wikiLink b alias ++ post) =
    (string_of_list_ascii (wikiLink b alias), string_of_list_ascii b) :: linkScan k post.
Proof.
  intros H. cbn [linkScan]. unfold wikiLink at 1. cbn [app].
  fold (wikiLink b alias). change ("["%char :: "["%char :: _) with (wikiLink b alias).
  rewrite (linkAt_wikiLink _ _ _ H). rewrite length_app, Nat.add_sub.
  rewrite firstn_app, Nat.sub_diag, firstn_all. simpl. rewrite app_nil_r. reflexivity.
Qed.

(** A todo whose text contains a wiki link [[b]] or [[b|alias]] to the
    note's daily-file basename [b], with no opening square bracket before
    the link, is linked to the note. *)
Theorem todo_link_detected (todo : TodoItem) (note : MeetingNote)
    (pre b post : list ascii) (alias : option (list ascii)) :
  (forall c, In c pre -> c <> "["%char) ->
  linkTargetOk b alias ->
  list_ascii_of_string (basename (file note)) = b ->
  list_ascii_of_string (todoText todo) = pre ++ wikiLink b alias ++ post ->
  todoHasLinkToNote todo note = true.
Proof.
  intros Hpre Hok Hbase Htext. unfold todoHasLinkToNote, linkMatches at 2. cbv zeta.
  rewrite Htext.
  replace (S (List.length (pre ++ wikiLink b alias ++ post)))
    with (List.length pre + S (List.length (wikiLink b alias ++ post)))
    by (rewrite !length_app; lia).
  rewrite (linkScan_skip _ _ _ Hpre), (linkScan_wikiLink _ _ _ _ Hok).
  cbn [map fst existsb].
  assert (E : linkScan (S (List.length (wikiLink b alias))) (wikiLink b alias ++ []) =
              (string_of_list_ascii (wikiLink b alias), string_of_list_ascii b) :: linkScan _ [])
    by exact (linkScan_wikiLink _ _ _ _ Hok).
  rewrite app_nil_r in E. unfold linkMatches. rewrite list_ascii_of_string_of_list_ascii, E.
  assert (Hb : basename (file note) = string_of_list_ascii b)
    by (rewrite <- Hbase, string_of_list_ascii_of_string; reflexivity).
  rewrite Hb, String.eqb_refl.
  assert (Ht : truthy (string_of_list_ascii b) = true).
  { destruct Hok as [Hne _]. unfold truthy. apply negb_true_iff, String.eqb_neq. intro Z.
    apply Hne. rewrite <- (list_ascii_of_string_of_list_ascii b), Z. reflexivity. }
  rewrite Ht. reflexivity.
Qed.

Lemma todo_link_detected_witness :
  todoHasLinkToNote (mkTodo "see [[2024-01-15|planning]] today" day2 None 3) reviewNote = true.
Proof.
  apply (todo_link_detected _ _ (list_ascii_of_string "see ") (list_ascii_of_string "2024-01-15")
           (list_ascii_of_string " today") (Some (list_ascii_of_string "planning")));
    [ | split; [discriminate | split] | reflexivity | reflexivity ].
  - intros c Hc. simpl in Hc. intuition (subst; discriminate).
  - intros c Hc. simpl in Hc. intuition (subst; discriminate).
  - split; [discriminate|]. intros c Hc. simpl in Hc. intuition (subst; discriminate).
Defined.

Lemma todoStep_app (note : MeetingNote) (set : list string) (orig : list (string * string))
    (acc : list RelatedTodoItem) (todo : TodoItem) :
  todoStep note set orig acc todo = acc ++ todoStep note set orig [] todo.
Proof.
  unfold todoStep. destruct (String.eqb _ _); [rewrite app_nil_r; reflexivity|].
  cbv zeta. destruct (truthy _); [reflexivity | rewrite app_nil_r; reflexivity].
Qed.

Lemma fold_todoStep (note : MeetingNote) (set : list string) (orig : list (string * string))
    (todos : list TodoItem) : forall acc,
  fold_left (todoStep note set orig) todos acc =
    acc ++ flat_map (todoStep note set orig []) todos.
Proof.
  induction todos as [|t ts IH]; intros acc; simpl; [rewrite app_nil_r; reflexivity|].
  rewrite IH, todoStep_app, app_assoc. reflexivity.
Qed.

Lemma todoStep_single (note : MeetingNote) (set : list string) (orig : list (string * string))
    (todo : TodoItem) :
  map item (todoStep note set orig [] todo) = [] \/ map item (todoStep note set orig [] todo) = [todo].
Proof.
  unfold todoStep. destruct (String.eqb _ _); [left; reflexivity|].
  cbv zeta. destruct (truthy _); [right | left]; reflexivity.
Qed.

Lemma map_get_set (k k' x : string) (m : list (string * string)) :
  map_get k' (map_set k x m) = if String.eqb k' k then Some x else map_get k' m.
Proof.
  induction m as [|[k0 y] r IH]; simpl; [reflexivity|].
  destruct (String.eqb_spec k k0) as [<-|Hk]; simpl.
  - destruct (String.eqb k' k); reflexivity.
  - destruct (String.eqb_spec k' k0) as [->|Hk']; [|exact IH].
    apply String.eqb_neq in Hk. rewrite String.eqb_sym, Hk. reflexivity.
Qed.

Lemma orig_inv (T l : list string) : forall m,
  (forall x, In x l -> In x T) ->
  (forall k o, map_get k m = Some o -> In o T /\ toLowerCase o = k) ->
  forall k o, map_get k (fold_left (fun m t => map_set (toLowerCase t) t m) l m) = Some o ->
    In o T /\ toLowerCase o = k.
Proof.
  induction l as [|t l IH]; intros m Hl Hm; simpl; [exact Hm|].
  apply IH; [intros x Hx; apply Hl; right; exact Hx|].
  intros k o. rewrite map_get_set. destruct (String.eqb_spec k (toLowerCase t)) as [->|_]; [|apply Hm].
  intros H. injection H as <-. split; [apply Hl; left; reflexivity | reflexivity].
Qed.

Lemma matching_inv (T F l : list string) (set : list string) (orig : list (string * string)) :
  (forall k o, map_get k orig = Some o -> In o T /\ toLowerCase o = k) -> forall mt,
  (forall x, In x l -> In x F) ->
  (forall m, In m mt -> In m T /\ exists t, In t F /\ toLowerCase t = toLowerCase m) ->
  forall m, In m (fold_left (fun mt t =>
                     if setHas set (toLowerCase t) then
                       match map_get (toLowerCase t) orig with
                       | Some o => if truthy o then mt ++ [o] else mt
                       | None => mt
                       end
                     else mt) l mt) ->
    In m T /\ exists t, In t F /\ toLowerCase t = toLowerCase m.
Proof.
  intros Horig. induction l as [|t l IH]; intros mt Hl Hmt; simpl; [exact Hmt|].
  apply IH; [intros x Hx; apply Hl; right; exact Hx|].
  destruct (setHas _ _); [|exact Hmt].
  destruct (map_get (toLowerCase t) orig) as [o|] eqn:Eo; [|exact Hmt].
  destruct (truthy o); [|exact Hmt].
  intros m Hm. apply in_app_or in Hm as [Hm|[<-|[]]]; [apply Hmt, Hm|].
  destruct (Horig _ _ Eo) as [HoT Ho]. split; [exact HoT|].
  exists t. split; [apply Hl; left; reflexivity | symmetry; exact Ho].
Qed.

Definition relatedReasonOk (note : MeetingNote) (r : RelatedTodoItem) : Prop :=
  (relationReason r = "shared tag" <-> matchingTags r <> []) /\
  (relationReason r = "linked" -> todoHasLinkToNote (item r) note = true) /\
  (forall m, In m (matchingTags r) ->
     In m (tags note) /\
     exists t, In t (getFileTags (todoFile (item r))) /\ toLowerCase t = toLowerCase m).

Lemma todoStep_reason (note : MeetingNote) (set : list string) (orig : list (string * string))
    (todo : TodoItem) :
  (forall k o, map_get k orig = Some o -> In o (tags note) /\ toLowerCase o = k) ->
  forall r, In r (todoStep note set orig [] todo) -> relatedReasonOk note r.
Proof.
  intros Horig r. unfold todoStep.
  destruct (String.eqb (path (todoFile todo)) (path (file note))); [intros []|].
  cbv zeta.
  set (mt := if 0 <? List.length set then _ else []).
  assert (Hmt0 : (0 <? List.length set) = false -> mt = []) by (unfold mt; intros ->; reflexivity).
  assert (Hmt : forall m, In m mt -> In m (tags note) /\
            exists t, In t (getFileTags (todoFile todo)) /\ toLowerCase t = toLowerCase m).
  { unfold mt. destruct (0 <? List.length set); [|intros m []].
    apply (matching_inv _ _ _ _ _ Horig); [intros x Hx; exact Hx | intros m []]. }
  clearbody mt.
  destruct ((0 <? List.length set) && (0 <? List.length mt)) eqn:E1.
  - change (truthy "shared tag") with true. cbn [negb andb].
    intros [<-|[]]. unfold relatedReasonOk; simpl.
    apply andb_true_iff in E1 as [_ E1]. apply Nat.ltb_lt in E1.
    split; [split; [intros _; destruct mt; [simpl in E1; lia | discriminate] | reflexivity]|].
    split; [discriminate | exact Hmt].
  - change (truthy "") with false. cbn [negb andb].
    destruct (todoHasLinkToNote todo note) eqn:EL; [|intros []].
    change (truthy "linked") with true.
    intros [<-|[]]. unfold relatedReasonOk; simpl.
    assert (Hnil : mt = []).
    { apply andb_false_iff in E1 as [E1|E1]; [exact (Hmt0 E1)|].
      destruct mt; [reflexivity | discriminate]. }
    split; [split; [discriminate | intros H; contradiction]|].
    split; [intros _; exact EL | exact Hmt].
Qed.

(** The related todos of a note are a subsequence of [getAllTodos], in scan
    order. *)
Theorem related_todos_scan_order (v : Vault) (note : MeetingNote) :
  exists keep : TodoItem -> bool,
    map item (getTodosForMeetingNote v note) = filter keep (getAllTodos v).
Proof.
  unfold getTodosForMeetingNote. cbv zeta. rewrite fold_todoStep. simpl app.
  set (step := todoStep note _ _ []).
  exists (fun t => match step t with [] => false | _ => true end).
  induction (getAllTodos v) as [|t ts IH]; [reflexivity|].
  simpl. rewrite map_app, IH.
  destruct (todoStep_single note (set_of_list (map toLowerCase (tags note)))
              (fold_left (fun m t => map_set (toLowerCase t) t m) (tags note) []) t) as [H|H];
    fold step in H; rewrite H; destruct (step t); try reflexivity; discriminate.
Qed.

(** A related todo has the reason [shared tag] exactly when its matching
    tags are nonempty; a [linked] todo has a link to the note; each
    matching tag is a tag of the note that equals a tag of the todo's file
    up to case. *)
Theorem related_todo_reasons (v : Vault) (note : MeetingNote) (r : RelatedTodoItem) :
  In r (getTodosForMeetingNote v note) ->
  (relationReason r = "shared tag" <-> matchingTags r <> []) /\
  (relationReason r = "linked" -> todoHasLinkToNote (item r) note = true) /\
  (forall m, In m (matchingTags r) ->
     In m (tags note) /\
     exists t, In t (getFileTags (todoFile (item r))) /\ toLowerCase t = toLowerCase m).
Proof.
  unfold getTodosForMeetingNote. cbv zeta. rewrite fold_todoStep. simpl app.
  intros H. apply in_flat_map in H as [todo [_ H]].
  refine (todoStep_reason _ _ _ _ _ r H).
  apply (orig_inv _ _ []); [intros x Hx; exact Hx | intros k o E; discriminate].
Qed.

Lemma related_todo_reasons_witness :
  exists r, In r (getTodosForMeetingNote exampleVault planningNote) /\
    (relationReason r = "shared tag" <-> matchingTags r <> []) /\
    (relationReason r = "linked" -> todoHasLinkToNote (item r) planningNote = true) /\
    (forall m, In m (matchingTags r) ->
       In m (tags planningNote) /\
       exists t, In t (getFileTags (todoFile (item r))) /\ toLowerCase t = toLowerCase m).
Proof.
  set (r0 := nth 0 (getTodosForMeetingNote exampleVault planningNote)
                 (mkRelatedTodo (mkTodo "" day1 None 0) "" [])).
  assert (Hin : In r0 (getTodosForMeetingNote exampleVault planningNote))
    by (vm_compute; left; reflexivity).
  exists r0. split; [exact Hin|].
  exact (related_todo_reasons exampleVault planningNote r0 Hin).
Defined.

Lemma suggest_top10_witness :
  List.length (suggestTags crowdedVault syncNote) = 10 /\
  forall s, In s (suggestTags crowdedVault syncNote) ->
    calculateTagScore "#alpha-j" (tokenize (heading syncNote)) (tokenize (content syncNote)) <= score s.
Proof.
  apply (suggest_top10 crowdedVault syncNote "#alpha-j").
  - vm_compute. intuition discriminate.
  - vm_compute. intros [].
  - vm_compute. lia.
  - vm_compute. intuition discriminate.
Defined.

Lemma suggest_reason_witness :
  exists s, In s (suggestTags exampleVault alphaNote) /\
  exists u, reason s = String.append "Matches: " (String.concat ", " u) /\
    1 <= List.length u <= 3 /\ NoDup u /\
    forall w, In w u ->
      In w (tokenize (heading alphaNote) ++ tokenize (content alphaNote)) /\
      matchesToken (tagNameOf (tag s)) (tagPartsOf (tagNameOf (tag s))) w = true.
Proof.
  set (s0 := nth 0 (suggestTags exampleVault alphaNote) (mkSuggestion "" 0 "")).
  assert (Hin : In s0 (suggestTags exampleVault alphaNote)) by (vm_compute; left; reflexivity).
  exists s0. split; [exact Hin|]. exact (suggest_reason exampleVault alphaNote s0 Hin).
Defined.

Lemma check_cursor_new_line_witness :
  let note := getMeetingNoteAtCursor defaults twoNotesDay 3 in
  let (st', rendered) := ReflectorView.checkCursorPosition defaults viewStart 3 in
  ReflectorView.currentLine st' = Z.of_nat 3 /\
  ReflectorView.notePath (ReflectorView.currentNote st') = ReflectorView.notePath note /\
  ReflectorView.noteStart (ReflectorView.currentNote st') = ReflectorView.noteStart note /\
  (rendered = true <->
   ~ (ReflectorView.notePath (ReflectorView.currentNote viewStart) = ReflectorView.notePath note /\
      ReflectorView.noteStart (ReflectorView.currentNote viewStart) = ReflectorView.noteStart note)) /\
  (rendered = false -> ReflectorView.currentNote st' = ReflectorView.currentNote viewStart).
Proof.
  apply (ReflectorViewFacts.check_cursor_new_line defaults viewStart twoNotesDay 3);
    [reflexivity | reflexivity | simpl; lia].
Defined.

Lemma refresh_current_note_witness :
  ReflectorView.currentNote (fst (ReflectorView.refresh defaults viewStart 3)) =
    getMeetingNoteAtCursor defaults twoNotesDay 3 /\
  ReflectorView.currentLine (fst (ReflectorView.refresh defaults viewStart 3)) = Z.of_nat 3.
Proof.
  apply (ReflectorViewFacts.refresh_current_note defaults viewStart twoNotesDay 3); reflexivity.
Defined.

Lemma file_open_same_line_witness :
  let st := ReflectorView.mkView (Some day1) true (Some planningNote) 3%Z in
  ReflectorView.onFileOpen defaults st (Some twoNotesDay) true 3 =
  (ReflectorView.mkView (Some twoNotesDay) true (Some planningNote) 3%Z, false).
Proof.
  apply (ReflectorViewFacts.file_open_same_line defaults
           (ReflectorView.mkView (Some day1) true (Some planningNote) 3%Z) twoNotesDay 3).
  reflexivity.
Defined.

(** A [#] directly followed by a tag character somewhere in [text]. *)
Definition hasTagStart (text : string) : Prop :=
  exists p c r, list_ascii_of_string text = p ++ hash :: c :: r /\ is_tag_char c = true.

Lemma emit_tag_shape (acc : list ascii) :
  forallb is_tag_char acc = true ->
  forall t, In t (emit_tag acc) ->
    exists b, t = String hash (string_of_list_ascii b) /\ b <> [] /\ forallb is_tag_char b = true.
Proof.
  intros Ha t. destruct acc as [|x acc]; [intros []|]. intros [<-|[]].
  exists (rev (x :: acc)). split; [reflexivity|]. split.
  - intro E. apply (f_equal (@List.length ascii)) in E. rewrite length_rev in E. discriminate.
  - apply forallb_forall. intros c Hc. apply in_rev in Hc. rewrite forallb_forall in Ha. apply Ha, Hc.
Qed.

Lemma tag_scan_shape (s : string) : forall pending,
  (forall acc, pending = Some acc -> forallb is_tag_char acc = true) ->
  forall t, In t (tag_scan pending s) ->
    exists b, t = String hash (string_of_list_ascii b) /\ b <> [] /\ forallb is_tag_char b = true.
Proof.
  induction s as [|c r IH]; intros pending Hp t; simpl.
  - destruct pending as [acc|]; [apply emit_tag_shape, Hp; reflexivity | intros []].
  - destruct pending as [acc|].
    + specialize (Hp acc eq_refl). destruct (is_tag_char c) eqn:Ec.
      * apply IH. intros acc' E. injection E as <-. simpl. rewrite Ec. exact Hp.
      * intros H. apply in_app_or in H as [H|H]; [exact (emit_tag_shape _ Hp t H)|].
        refine (IH _ _ t H). intros acc' E.
        destruct (Ascii.eqb c hash); [injection E as <-; reflexivity | discriminate].
    + apply IH. intros acc' E. destruct (Ascii.eqb c hash); [injection E as <-; reflexivity | discriminate].
Qed.

Lemma tag_scan_some_nonempty (s : string) : forall x acc, tag_scan (Some (x :: acc)) s <> [].
Proof.
  induction s as [|c r IH]; intros x acc; simpl; [discriminate|].
  destruct (is_tag_char c); [apply IH | discriminate].
Qed.

Lemma hash_not_tag_char : is_tag_char hash = false.
Proof. reflexivity. Qed.

Lemma tagMatches_nil (s : string) : tagMatches s = [] <-> ~ hasTagStart s.
Proof.
  unfold tagMatches, hasTagStart. induction s as [|c r IH]; simpl.
  - split; [intros _ (p & c & r & E & _); destruct p; discriminate | reflexivity].
  - destruct (Ascii.eqb_spec c hash) as [->|Hc].
    + destruct r as [|c' r']; simpl.
      * split; [|reflexivity]. intros _ (p & x & r & E & _).
        destruct p as [|a [|b p]]; discriminate.
      * destruct (is_tag_char c') eqn:Ec.
        -- split; [intro E; exfalso; exact (tag_scan_some_nonempty _ _ _ E)|].
           intro N. exfalso. apply N. exists [], c', (list_ascii_of_string r'). split; [reflexivity | exact Ec].
        -- simpl in IH. change (tag_scan (if Ascii.eqb c' hash then Some [] else None) r' = [] <->
                                 ~ (exists p c r, c' :: list_ascii_of_string r' = p ++ hash :: c :: r /\
                                                  is_tag_char c = true)) in IH.
           rewrite IH. split; intros N H; apply N; destruct H as (p & x & r & E & Hx).
           ++ destruct p as [|a p].
              ** injection E as <- _. congruence.
              ** injection E as <- E. exists p, x, r. split; [exact E | exact Hx].
           ++ exists (hash :: p), x, r. rewrite E. split; [reflexivity | exact Hx].
    + rewrite IH. split; intros N H; apply N; destruct H as (p & x & r0 & E & Hx).
      * destruct p as [|a p].
        -- injection E as E _. congruence.
        -- injection E as <- E. exists p, x, r0. split; [exact E | exact Hx].
      * exists (c :: p), x, r0. rewrite E. split; [reflexivity | exact Hx].
Qed.

Lemma set_of_list_nil (l : list string) : set_of_list l = [] <-> l = [].
Proof.
  split; [|intros ->; reflexivity].
  intros E. destruct l as [|x l]; [reflexivity|]. exfalso.
  assert (H : In x (set_of_list (x :: l))) by (apply set_of_list_In; left; reflexivity).
  rewrite E in H. exact H.
Qed.

(** [extractTags] returns distinct tags, each a [#] followed by one or more
    tag characters (letters, digits, [_], [/], [-]). *)
Theorem extract_tags_shape (text : string) :
  NoDup (extractTags text) /\
  forall t, In t (extractTags text) ->
    exists b, t = String hash (string_of_list_ascii b) /\ b <> [] /\ forallb is_tag_char b = true.
Proof.
  unfold extractTags. split; [apply set_of_list_nodup|].
  intros t Ht. rewrite set_of_list_In in Ht.
  exact (tag_scan_shape _ None (fun acc E => ltac:(discriminate E)) t Ht).
Qed.

(** A meeting note is untagged exactly when its heading and content contain
    no [#] directly followed by a tag character. *)
Theorem untagged_notes_spec (v : Vault) (settings : ReflectorSettings) (n : MeetingNote) :
  In n (getUntaggedMeetingNotes v settings) <->
  In n (getAllMeetingNotes v settings) /\
  ~ hasTagStart (String.append (heading n) (String.append nl_s (content n))).
Proof.
  unfold getUntaggedMeetingNotes. rewrite filter_In.
  assert (Ht : In n (getAllMeetingNotes v settings) ->
               tags n = extractTags (String.append (heading n) (String.append nl_s (content n)))).
  { unfold getAllMeetingNotes. cbv zeta. intros H.
    apply (Permutation_in _ (sort_by_perm _ _ _)) in H.
    apply in_flat_map in H as [f [_ H]]. unfold parseDailyNote in H.
    pose proof (parse_good settings f (split_lines (contents f))) as G.
    rewrite Forall_forall in G. destruct (G n H) as (_ & _ & _ & _ & E). exact E. }
  split; intros [H1 H2]; split; try exact H1.
  - rewrite (Ht H1) in H2. apply Nat.eqb_eq, length_zero_iff_nil in H2.
    unfold extractTags in H2. apply set_of_list_nil, tagMatches_nil in H2. exact H2.
  - rewrite (Ht H1). apply Nat.eqb_eq, length_zero_iff_nil.
    unfold extractTags. apply set_of_list_nil, tagMatches_nil. exact H2.
Qed.

Lemma daily_files_In (v : Vault) (settings : ReflectorSettings) (f : TFile) :
  In f (getDailyNoteFiles v settings) ->
  exists children, lookup_folder (dailyNotesFolder settings) (folders v) = Some children /\
    In (AFile f) children /\ isDailyNoteName (name f) = true.
Proof.
  unfold getDailyNoteFiles. destruct (lookup_folder _ _) as [ch|]; [|intros []].
  intros H. apply in_flat_map in H as [[g|p] [Ha H]]; [|destruct H].
  destruct (isDailyNoteName (name g)) eqn:E; [|destruct H].
  destruct H as [<-|[]]. exists ch. split; [reflexivity|]. split; [exact Ha | exact E].
Qed.

(** Every meeting note of the vault comes from a file with a daily-note name
    directly inside the configured folder, with the file's basename as
    date, and the notes are sorted by date, newest first. *)
Theorem all_meeting_notes_spec (v : Vault) (settings : ReflectorSettings) :
  (forall n, In n (getAllMeetingNotes v settings) ->
     exists children, lookup_folder (dailyNotesFolder settings) (folders v) = Some children /\
       In (AFile (file n)) children /\ isDailyNoteName (name (file n)) = true /\
       date n = basename (file n)) /\
  Sorted (fun a b => (localeCompare (date b) (date a) <= 0)%Z) (getAllMeetingNotes v settings).
Proof.
  unfold getAllMeetingNotes. cbv zeta. split.
  - intros n H. apply (Permutation_in _ (sort_by_perm _ _ _)) in H.
    apply in_flat_map in H as [f [Hf H]]. unfold parseDailyNote in H.
    pose proof (parse_layout settings f (split_lines (contents f))) as L.
    destruct (lay_In _ _ _ _ _ _ _ _ L H) as (_ & _ & _ & (F & D & _)).
    rewrite F, D. destruct (daily_files_In v settings f Hf) as (ch & H1 & H2 & H3).
    exists ch. repeat split; assumption.
  - apply sort_by_sorted. intros a b Hab. rewrite localeCompare_antisym. lia.
Qed.
